(** * Tensorforce: conjugate-gradient solver and update-modifier wrapper

    A shallow embedding of
    - [tensorforce/core/optimizers/solvers/conjugate_gradient.py]
      (class [ConjugateGradient]: [start], [step], [next_step]) and
    - [tensorforce/core/optimizers/update_modifier_wrapper.py]
      (function [UpdateModifierWrapper]),
    followed by the properties of the specification stated over them.

    Python exceptions are modelled by an error monad, TensorFlow float
    tensors by lists over an abstract scalar type with the operations the
    code uses, Python dicts by association lists in insertion order. *)

From Stdlib Require Import List String ZArith QArith Bool Lia.
Import ListNotations.
Local Open Scope string_scope.

(* ------------------------------------------------------------------ *)
(** * Exceptions *)

(** The Python exceptions the modelled code can raise. *)
Inductive error : Type :=
| TypeError                      (* callable applied to the wrong number of
                                    arguments, unhashable dict key *)
| KeyError                       (* missing dict / registry entry *)
| ValueError.                    (* tf.math.add_n on an empty list *)

Inductive result (A : Type) : Type :=
| Ok (a : A)
| Err (e : error).
Arguments Ok {A} a.
Arguments Err {A} e.

Definition bind {A B : Type} (r : result A) (k : A -> result B) : result B :=
  match r with
  | Ok a => k a
  | Err e => Err e
  end.

Notation "x <- c ;; k" := (bind c (fun x => k))
  (at level 61, c at next level, right associativity).

Definition is_ok {A : Type} (r : result A) : bool :=
  match r with Ok _ => true | Err _ => false end.

(** [tf.cond(pred, true_fn, false_fn)] inside a [tf_function]: in graph
    mode both branch functions are traced when the conditional is built,
    [true_fn] first, so an exception of either one is raised whatever
    [pred] is; the value is that of the branch [pred] selects. *)
Definition cond {A : Type} (pred : bool) (true_fn false_fn : result A)
  : result A :=
  t <- true_fn ;;
  f <- false_fn ;;
  Ok (if pred then t else f).

(* ------------------------------------------------------------------ *)
(** * Scalars and tensors *)

(** The scalar operations of dtype 'float' that the solver uses:
    [+], [-], [*], [/], [tf.math.maximum], [>=] and [tf.math.equal].
    They are kept abstract so that what is proved of the control and data
    flow holds for IEEE floats as well as for exact arithmetic. *)
Class FloatOps (F : Type) : Type := {
  fzero : F;
  fadd : F -> F -> F;
  fsub : F -> F -> F;
  fmul : F -> F -> F;
  fdiv : F -> F -> F;
  fmaximum : F -> F -> F;
  fge : F -> F -> bool;
  fequal : F -> F -> bool
}.

(** Exact rational arithmetic, used to run the model on concrete inputs. *)
Definition Qmaximum (x y : Q) : Q := if Qle_bool y x then x else y.

#[export] Instance QFloat : FloatOps Q := {|
  fzero := 0%Q;
  fadd := Qplus;
  fsub := Qminus;
  fmul := Qmult;
  fdiv := Qdiv;
  fmaximum := Qmaximum;
  fge := fun x y => Qle_bool y x;
  fequal := Qeq_bool
|}.

(** A tensor is the list of its elements (its shape plays no part in the
    element-wise operations and the full reductions of the solver). *)
Definition tensor (F : Type) : Type := list F.

(** A [TensorDict]: an ordered mapping from value name to tensor. *)
Definition StructuredValue (F : Type) : Type := list (string * tensor F).

(** Solver state [(x, conjugate, residual, squared_residual)]. *)
Definition state (F : Type) : Type :=
  (StructuredValue F * StructuredValue F * StructuredValue F * F)%type.

Section TensorOps.
Context {F : Type} {ops : FloatOps F}.

(** Element-wise binary operation on two tensors of one shape.  Within a
    solve the values specification fixes the shape per key; theorems
    about element-wise results carry that as a hypothesis
    ([compatible] below). *)
Fixpoint zip_with (f : F -> F -> F) (a b : tensor F) : tensor F :=
  match a, b with
  | u :: a', v :: b' => f u v :: zip_with f a' b'
  | _, _ => []
  end.

Definition t_add : tensor F -> tensor F -> tensor F := zip_with fadd.
Definition t_sub : tensor F -> tensor F -> tensor F := zip_with fsub.
Definition t_mul : tensor F -> tensor F -> tensor F := zip_with fmul.

(** [scalar * tensor]. *)
Definition t_scale (a : F) (t : tensor F) : tensor F := map (fmul a) t.

(** [tf.zeros_like]. *)
Definition zeros_like (t : tensor F) : tensor F := map (fun _ => fzero) t.

(** Left-to-right sum; the empty sum is zero. *)
Definition sum_list (l : list F) : F :=
  match l with
  | [] => fzero
  | h :: r => fold_left fadd r h
  end.

(** [tf.math.reduce_sum] over all elements of one tensor (zero for a
    tensor without elements). *)
Definition reduce_sum (t : tensor F) : F := sum_list t.

(** [tf.math.add_n]: adds the tensors of a list; TensorFlow rejects an
    empty list with [ValueError] ("inputs must be an iterable of at least
    one Tensor"). *)
Definition add_n (inputs : list F) : result F :=
  match inputs with
  | [] => Err ValueError
  | h :: r => Ok (fold_left fadd r h)
  end.

(** ** TensorDict *)

Fixpoint sv_get (name : string) (d : StructuredValue F) : option (tensor F) :=
  match d with
  | [] => None
  | (k, t) :: d' => if String.eqb name k then Some t else sv_get name d'
  end.

(** [d.values()] and the key list. *)
Definition values (d : StructuredValue F) : list (tensor F) := map snd d.
Definition keys (d : StructuredValue F) : list string := map fst d.

(** A Python callable as [fmap] receives it: [tf.zeros_like] takes one
    tensor, the lambdas with [zip_values] take two.  Calling one with the
    wrong number of positional arguments raises [TypeError]. *)
Inductive callable : Type :=
| Unary (f : tensor F -> tensor F)
| Binary (f : tensor F -> tensor F -> tensor F).

Definition call1 (function : callable) (value : tensor F) : result (tensor F) :=
  match function with
  | Unary f => Ok (f value)
  | Binary _ => Err TypeError
  end.

Definition call2 (function : callable) (value zip_value : tensor F)
  : result (tensor F) :=
  match function with
  | Binary f => Ok (f value zip_value)
  | Unary _ => Err TypeError
  end.

(** Modelled from the spec: [NestedDict.fmap] (tensorforce/core/utils is
    not among the sources).  "fmap(f, other?) -> new StructuredValue
    applying f elementwise (unary or binary, zipped by key)": for every
    [(name, value)] of [self] in order, the result maps [name] to
    [function(value)] when [zip_values] is absent and to
    [function(value, zip_values[name])] when it is given; a name missing
    from [zip_values] raises [KeyError]. *)
Fixpoint fmap (function : callable) (zip_values : option (StructuredValue F))
         (self : StructuredValue F) : result (StructuredValue F) :=
  match self with
  | [] => Ok []
  | (name, value) :: rest =>
      v <- match zip_values with
           | None => call1 function value
           | Some z =>
               match sv_get name z with
               | None => Err KeyError
               | Some zip_value => call2 function value zip_value
               end
           end ;;
      rest' <- fmap function zip_values rest ;;
      Ok ((name, v) :: rest')
  end.

End TensorOps.

(* ------------------------------------------------------------------ *)
(** * ConjugateGradient *)

Section ConjugateGradient.
Context {F : Type} {ops : FloatOps F}.

(** [util.epsilon], the library-wide numerical floor (tensorforce/util.py
    is not among the sources; the specification only says it is a small
    positive constant). *)
Variable epsilon : F.

(** [self.damping.value()]. *)
Variable damping : F.

(** [self.fn_x], the implicit linear operator. *)
Variable fn_x : StructuredValue F -> StructuredValue F.

(** [[tf.math.reduce_sum(input_tensor=(res * res)) for res in
     residual.values()]] summed by [tf.math.add_n]. *)
Definition squared_norm (residual : StructuredValue F) : result F :=
  add_n (map (fun res => reduce_sum (t_mul res res)) (values residual)).

(** [ConjugateGradient.start]. *)
Definition start (x_init : option (StructuredValue F)) (b : StructuredValue F)
  : result (state F) :=
  x_init <- match x_init with
            | None => fmap (Unary zeros_like) None b
            | Some x_init => Ok x_init
            end ;;
  let fx := fn_x x_init in
  residual <- fmap (Binary (fun t ft => t_sub t ft)) (Some fx) x_init ;;
  let conjugate := residual in
  squared_residual <- squared_norm residual ;;
  Ok (x_init, conjugate, residual, squared_residual).

(** [step], lines 119-135: [A_conjugate] after the damping conditional.
    [step] is a [tf_function], so [tf.cond] traces [apply_damping] (and
    its zip of [A_conjugate] with [conjugate]) also when the damping is
    zero. *)
Definition damped_A_conjugate (conjugate : StructuredValue F)
  : result (StructuredValue F) :=
  let A_conjugate := fn_x conjugate in
  let no_damping := Ok A_conjugate in
  let apply_damping :=
    fmap (Binary (fun A_conj conj => t_add A_conj (t_scale damping conj)))
         (Some conjugate) A_conjugate in
  let skip_damping := fequal damping fzero in
  cond skip_damping no_damping apply_damping.

(** [step], lines 137-142: the scalar [conjugate_A_conjugate].  The
    two-argument lambda is handed to [fmap] without [zip_values]. *)
Definition conjugate_A_conjugate_of (conjugate : StructuredValue F)
  : result F :=
  conjugate_A_conjugate <-
    fmap (Binary (fun conj A_conj => t_mul conj A_conj)) None conjugate ;;
  add_n (map reduce_sum (values conjugate_A_conjugate)).

(** [step], lines 144-173: the update from [alpha] on. *)
Definition step_update (x conjugate residual : StructuredValue F)
           (squared_residual : F) (A_conjugate : StructuredValue F)
           (conjugate_A_conjugate : F) : result (state F) :=
  let alpha := fdiv squared_residual (fmaximum conjugate_A_conjugate epsilon) in
  next_x <- fmap (Binary (fun t conj => t_add t (t_scale alpha conj)))
                 (Some conjugate) x ;;
  next_residual <-
    fmap (Binary (fun res A_conj => t_sub res (t_scale alpha A_conj)))
         (Some A_conjugate) residual ;;
  next_squared_residual <- squared_norm next_residual ;;
  let beta := fdiv next_squared_residual (fmaximum squared_residual epsilon) in
  next_conjugate <-
    fmap (Binary (fun res conj => t_add res (t_scale beta conj)))
         (Some conjugate) next_residual ;;
  Ok (next_x, next_conjugate, next_residual, next_squared_residual).

(** [ConjugateGradient.step]. *)
Definition step (st : state F) : result (state F) :=
  let '(x, conjugate, residual, squared_residual) := st in
  A_conjugate <- damped_A_conjugate conjugate ;;
  conjugate_A_conjugate <- conjugate_A_conjugate_of conjugate ;;
  step_update x conjugate residual squared_residual
              A_conjugate conjugate_A_conjugate.

(** [ConjugateGradient.next_step]. *)
Definition next_step (st : state F) : bool :=
  let '(x, conjugate, residual, squared_residual) := st in
  fge squared_residual epsilon.

(** Modelled from the spec: [Iterative.end] (the base class
    tensorforce/core/optimizers/solvers/iterative.py is not among the
    sources).  "end(state) -> x: identity, return the solution component
    only". *)
Definition end_ (st : state F) : StructuredValue F :=
  let '(x, conjugate, residual, squared_residual) := st in x.

(** Modelled from the spec: the loop of [Iterative.solve].  "iterate at
    most max_iterations times", each iteration gated on the [next_step]
    predicate of the current state ("terminates on first next_step
    check"), "stop early the first time it returns false";
    "max_iterations = 0 returns the initial state unmodified". *)
Fixpoint iterate (max_iterations : nat) (st : state F) : result (state F) :=
  match max_iterations with
  | O => Ok st
  | S n =>
      if next_step st then st' <- step st ;; iterate n st' else Ok st
  end.

(** Modelled from the spec: [Iterative.solve], "drives the loop": [start],
    the loop, then [end]; an error of a callback is "propagated
    uncaught". *)
Definition solve (max_iterations : nat)
           (x_init : option (StructuredValue F)) (b : StructuredValue F)
  : result (StructuredValue F) :=
  st <- start x_init b ;;
  st' <- iterate max_iterations st ;;
  Ok (end_ st').

End ConjugateGradient.

(* ------------------------------------------------------------------ *)
(** * The solver as the specification words it *)

Section SolverSpecification.
Context {F : Type} {ops : FloatOps F}.

(** "the all-zero StructuredValue matching b's structure". *)
Definition zero_structure (b : StructuredValue F) : StructuredValue F :=
  map (fun kt => (fst kt, List.repeat fzero (List.length (snd kt)))) b.

(** "sum over all keys of sum over all elements of square". *)
Definition sum_of_squares (r : StructuredValue F) : F :=
  sum_list (map (fun kt => sum_list (map (fun e => fmul e e) (snd kt))) r).

(** Every key of [a] is a key of [z], with a tensor of as many elements:
    the structures match as far as a zip of [a] with [z] looks. *)
Definition compatible (a z : StructuredValue F) : bool :=
  forallb (fun kt =>
             match sv_get (fst kt) z with
             | Some t => Nat.eqb (List.length t) (List.length (snd kt))
             | None => false
             end) a.

(** [r] is [a op z], key by key and element by element. *)
Definition keywise (op : F -> F -> F) (a z r : StructuredValue F) : Prop :=
  Forall2 (fun ka kr =>
             fst kr = fst ka /\
             exists tz, sv_get (fst ka) z = Some tz /\
                        List.length tz = List.length (snd ka) /\
                        snd kr = zip_with op (snd ka) tz) a r.

(** Key-wise zip of two structures of one key set. *)
Definition sv_zip (op : tensor F -> tensor F -> tensor F)
           (a z : StructuredValue F) : StructuredValue F :=
  map (fun kt =>
         (fst kt, op (snd kt) (match sv_get (fst kt) z with
                               | Some t => t
                               | None => []
                               end))) a.

(** "Sigma_keys Sigma_elements (a (.) z)". *)
Definition sv_dot (a z : StructuredValue F) : F :=
  sum_list (map (fun kt => sum_list (snd kt)) (sv_zip t_mul a z)).

(** The ten-step recurrence of the specification (section 4.2), written
    from its words, for comparison with [step]. *)
Definition spec_step (epsilon damping : F)
           (fn_x : StructuredValue F -> StructuredValue F)
           (st : state F) : state F :=
  let '(x, conjugate, residual, squared_residual) := st in
  (* 1 *) let A_conjugate := fn_x conjugate in
  (* 2 *) let A_conjugate :=
            if fequal damping fzero then A_conjugate
            else sv_zip (fun A_conj conj => t_add A_conj (t_scale damping conj))
                        A_conjugate conjugate in
  (* 3 *) let conjugate_A_conjugate := sv_dot conjugate A_conjugate in
  (* 4 *) let alpha :=
            fdiv squared_residual (fmaximum conjugate_A_conjugate epsilon) in
  (* 5 *) let x' := sv_zip (fun t conj => t_add t (t_scale alpha conj))
                           x conjugate in
  (* 6 *) let residual' :=
            sv_zip (fun res A_conj => t_sub res (t_scale alpha A_conj))
                   residual A_conjugate in
  (* 7 *) let squared_residual' := sum_of_squares residual' in
  (* 8 *) let beta :=
            fdiv squared_residual' (fmaximum squared_residual epsilon) in
  (* 9 *) let conjugate' :=
            sv_zip (fun res conj => t_add res (t_scale beta conj))
                   residual' conjugate in
  (* 10 *) (x', conjugate', residual', squared_residual').

(** The invariant of the solver state: [squared_residual] is the sum of
    squares of [residual]. *)
Definition residual_invariant (st : state F) : Prop :=
  let '(x, conjugate, residual, squared_residual) := st in
  squared_residual = sum_of_squares residual.

End SolverSpecification.

(* ------------------------------------------------------------------ *)
(** * UpdateModifierWrapper *)

#[local] Set Warnings "-register-all".

(** Python values that occur in optimizer specifications. *)
Inductive value : Type :=
| VNone
| VInt (n : Z)
| VFloat (q : Q)
| VStr (s : string)
| VDict (d : list (string * value)).

(** A [dict] with string keys, in insertion order. *)
Definition dict : Type := list (string * value).

(** [d[k] = v]. *)
Fixpoint dict_set (k : string) (v : value) (d : dict) : dict :=
  match d with
  | [] => [(k, v)]
  | (k', v') :: d' =>
      if String.eqb k k' then (k, v) :: d' else (k', v') :: dict_set k v d'
  end.

(** [d.get(k)]. *)
Fixpoint dict_get (k : string) (d : dict) : option value :=
  match d with
  | [] => None
  | (k', v) :: d' => if String.eqb k k' then Some v else dict_get k d'
  end.

(** [d.update(other)]. *)
Definition dict_update (d other : dict) : dict :=
  fold_left (fun acc kv => dict_set (fst kv) (snd kv) acc) other d.

(** [d.pop(k)]: the value and the remaining dict, [None] for a missing key. *)
Fixpoint dict_pop (k : string) (d : dict) : option (value * dict) :=
  match d with
  | [] => None
  | (k', v) :: d' =>
      if String.eqb k k' then Some (v, d')
      else match dict_pop k d' with
           | Some (w, r) => Some (w, (k', v) :: r)
           | None => None
           end
  end.

(** Lines 43-44: [optimizer = dict(type=optimizer); optimizer.update(kwargs)]. *)
Definition base_spec (optimizer : value) (kwargs : dict) : dict :=
  let optimizer := [("type", optimizer)] in
  dict_update optimizer kwargs.

(** Lines 43-56: the nested specification built from the knobs. *)
Definition build_spec (optimizer : value) (multi_step : Z)
           (subsampling_fraction : Q) (clipping_threshold : option Q)
           (optimizing_iterations : Z) (kwargs : dict) : dict :=
  let optimizer := base_spec optimizer kwargs in
  let optimizer :=
    if (optimizing_iterations >? 0)%Z then
      [("type", VStr "optimizing_step"); ("optimizer", VDict optimizer);
       ("ls_max_iterations", VInt optimizing_iterations)]
    else optimizer in
  let optimizer :=
    match clipping_threshold with
    | Some clipping_threshold =>
        [("type", VStr "clipping_step"); ("optimizer", VDict optimizer);
         ("threshold", VFloat clipping_threshold)]
    | None => optimizer
    end in
  let optimizer :=
    if negb (Qeq_bool subsampling_fraction 1) then
      [("type", VStr "subsampling_step"); ("optimizer", VDict optimizer);
       ("fraction", VFloat subsampling_fraction)]
    else optimizer in
  let optimizer :=
    if (multi_step >? 1)%Z then
      [("type", VStr "multi_step"); ("optimizer", VDict optimizer);
       ("num_steps", VInt multi_step)]
    else optimizer in
  optimizer.

Section Registry.

(** The optimizer modules the registered classes construct. *)
Variable Optimizer : Type.

(** A registered class, called with the remaining entries of the
    specification as keyword arguments, then [summary_labels], [name]
    and [arguments_spec]. *)
Definition constructor : Type :=
  dict -> value -> value -> value -> result Optimizer.

(** [tensorforce.core.optimizer_modules], a dict from type name to class
    (tensorforce/core/optimizers/__init__.py is not among the sources). *)
Variable optimizer_modules : string -> option constructor.

(** [optimizer_modules[key]]: a missing key raises [KeyError], an
    unhashable one [TypeError]; all registered keys are strings. *)
Definition registry_lookup (key : value) : result constructor :=
  match key with
  | VStr s =>
      match optimizer_modules s with
      | Some optimizer_cls => Ok optimizer_cls
      | None => Err KeyError
      end
  | VDict _ => Err TypeError
  | _ => Err KeyError
  end.

(** [UpdateModifierWrapper]. *)
Definition UpdateModifierWrapper (optimizer : value) (multi_step : Z)
           (subsampling_fraction : Q) (clipping_threshold : option Q)
           (optimizing_iterations : Z)
           (summary_labels name arguments_spec : value) (kwargs : dict)
  : result Optimizer :=
  let optimizer :=
    build_spec optimizer multi_step subsampling_fraction clipping_threshold
               optimizing_iterations kwargs in
  match dict_pop "type" optimizer with
  | None => Err KeyError
  | Some (type, optimizer) =>
      optimizer_cls <- registry_lookup type ;;
      optimizer_cls optimizer summary_labels name arguments_spec
  end.

End Registry.

(** ** The layering as the specification words it *)

(** One wrapping layer: type tag, name of its knob argument, knob value. *)
Definition layer : Type := (string * string * value)%type.

(** [nested layers spec base]: [spec] is [base] wrapped in [layers], the
    outermost first; each layer is a dict [type], [optimizer], knob. *)
Inductive nested : list layer -> dict -> dict -> Prop :=
| nested_base : forall base, nested [] base base
| nested_layer : forall tag knob v layers inner base,
    nested layers inner base ->
    nested ((tag, knob, v) :: layers)
           [("type", VStr tag); ("optimizer", VDict inner); (knob, v)] base.

(** The table of section 4.3, outermost layer first: a layer is present
    exactly when its knob differs from the disabled value. *)
Definition expected_layers (multi_step : Z) (subsampling_fraction : Q)
           (clipping_threshold : option Q) (optimizing_iterations : Z)
  : list layer :=
  (if (multi_step =? 1)%Z then []
   else [("multi_step", "num_steps", VInt multi_step)]) ++
  (if Qeq_bool subsampling_fraction 1 then []
   else [("subsampling_step", "fraction", VFloat subsampling_fraction)]) ++
  (match clipping_threshold with
   | None => []
   | Some t => [("clipping_step", "threshold", VFloat t)]
   end) ++
  (if (optimizing_iterations =? 0)%Z then []
   else [("optimizing_step", "ls_max_iterations", VInt optimizing_iterations)]).

(** The type tags of a nested specification, outermost first, following
    the [optimizer] entries for at most [depth] layers. *)
Fixpoint type_tags (depth : nat) (spec : dict) : list value :=
  match dict_get "type" spec with
  | None => []
  | Some t =>
      t :: match depth, dict_get "optimizer" spec with
           | S n, Some (VDict inner) => type_tags n inner
           | _, _ => []
           end
  end.

(** The layers [build_spec] applies, outermost first, by the guards of the
    code. *)
Definition applied_layers (multi_step : Z) (subsampling_fraction : Q)
           (clipping_threshold : option Q) (optimizing_iterations : Z)
  : list layer :=
  (if (multi_step >? 1)%Z
   then [("multi_step", "num_steps", VInt multi_step)] else []) ++
  (if negb (Qeq_bool subsampling_fraction 1)
   then [("subsampling_step", "fraction", VFloat subsampling_fraction)]
   else []) ++
  (match clipping_threshold with
   | Some t => [("clipping_step", "threshold", VFloat t)]
   | None => []
   end) ++
  (if (optimizing_iterations >? 0)%Z
   then [("optimizing_step", "ls_max_iterations", VInt optimizing_iterations)]
   else []).

(** Whether a layer with type tag [tag] is among [layers]. *)
Definition has_layer (tag : string) (layers : list layer) : bool :=
  existsb (fun l => String.eqb tag (fst (fst l))) layers.

(** A registry for running the wrapper: an optimizer module is recorded as
    the name of its class and the keyword arguments it was built from. *)
Definition built : Type := (string * dict)%type.

Definition construct (cls : string) : constructor built :=
  fun kwargs summary_labels name arguments_spec => Ok (cls, kwargs).

Definition registry_example (s : string) : option (constructor built) :=
  if existsb (String.eqb s)
             ["adam"; "optimizing_step"; "clipping_step";
              "subsampling_step"; "multi_step"]
  then Some (construct s) else None.

(* ------------------------------------------------------------------ *)
(** * Concrete inputs *)

(** A value for [util.epsilon] in exact arithmetic. *)
Definition epsilon_Q : Q := 1 # 1000000.

(** The operator [A = 2 I] and the identity, as [fn_x]. *)
Definition fn_double (v : StructuredValue Q) : StructuredValue Q :=
  map (fun kt => (fst kt, map (Qmult 2) (snd kt))) v.

Definition fn_identity (v : StructuredValue Q) : StructuredValue Q := v.

(** A right-hand side with two keys. *)
Definition b_two_keys : StructuredValue Q :=
  [("weights", [1; 2]); ("bias", [3])]%Q.

(** A one-key solver state: [x = 0], [conjugate = residual = 1],
    [squared_residual = 1]. *)
Definition st_unit : state Q :=
  ([("weights", [0])], [("weights", [1])], [("weights", [1])], 1)%Q.

(** Keys of a dict are pairwise distinct. *)
Fixpoint distinct (l : list string) : bool :=
  match l with
  | [] => true
  | k :: l' => negb (existsb (String.eqb k) l') && distinct l'
  end.

(* ------------------------------------------------------------------ *)
(** * Structure of a TensorDict *)

Section Structure.
Context {F : Type}.

(** Every key of [a] is a key of [z]: what a zip of [a] with [z] needs in
    order not to raise [KeyError]. *)
Definition covers (a z : StructuredValue F) : bool :=
  forallb (fun kt =>
             match sv_get (fst kt) z with
             | Some _ => true
             | None => false
             end) a.

(** Every key that [a] and [z] share carries tensors of as many elements
    in both: no element-wise operation of a zip of [a] with [z] meets two
    different shapes. *)
Definition shapes_agree (a z : StructuredValue F) : bool :=
  forallb (fun kt =>
             match sv_get (fst kt) z with
             | Some t => Nat.eqb (List.length t) (List.length (snd kt))
             | None => true
             end) a.

(** The keys, in order, with the number of elements of each tensor. *)
Definition structure_of (a : StructuredValue F) : list (string * nat) :=
  map (fun kt => (fst kt, List.length (snd kt))) a.

End Structure.

(** The initial guess [start] works with: [x_init], or the zeros of [b]'s
    structure when it is unset. *)
Definition initial_guess {F : Type} {ops : FloatOps F}
           (x_init : option (StructuredValue F)) (b : StructuredValue F)
  : StructuredValue F :=
  match x_init with
  | None => zero_structure b
  | Some x_init => x_init
  end.

(* ------------------------------------------------------------------ *)
(** * VanillaPolicyGradient *)

Module VPG.

(** Python values that occur as agent arguments. *)
Inductive pyval : Type :=
| PyNone
| PyBool (b : bool)
| PyInt (n : Z)
| PyFloat (q : Q)
| PyStr (s : string)
| PyDict (d : list (string * pyval)).

Definition pydict : Type := list (string * pyval).

(** [v is None]. *)
Definition is_None (v : pyval) : bool :=
  match v with
  | PyNone => true
  | _ => false
  end.

(** The truth value of [v], as [not v] and [assert v] take it. *)
Definition truthy (v : pyval) : bool :=
  match v with
  | PyNone => false
  | PyBool b => b
  | PyInt n => negb (n =? 0)%Z
  | PyFloat q => negb (Qeq_bool q 0)
  | PyStr s => negb (String.eqb s "")
  | PyDict d => match d with [] => false | _ :: _ => true end
  end.

Fixpoint pyget (k : string) (d : pydict) : option pyval :=
  match d with
  | [] => None
  | (k', v) :: d' => if String.eqb k k' then Some v else pyget k d'
  end.

(** The arguments of [VanillaPolicyGradient.__init__]. *)
Record arguments : Type := {
  states : pyval;
  actions : pyval;
  max_episode_timesteps : pyval;
  batch_size : pyval;
  network : pyval;
  use_beta_distribution : pyval;
  memory : pyval;
  update_frequency : pyval;
  learning_rate : pyval;
  discount : pyval;
  estimate_terminals : pyval;
  baseline_network : pyval;
  baseline_optimizer : pyval;
  preprocessing : pyval;
  exploration : pyval;
  variable_noise : pyval;
  l2_regularization : pyval;
  entropy_regularization : pyval;
  name : pyval;
  device : pyval;
  parallel_interactions : pyval;
  config : pyval;
  saver : pyval;
  summarizer : pyval;
  recorder : pyval
}.

(** The required arguments with the defaults of the signature. *)
Definition with_defaults (states actions max_episode_timesteps batch_size : pyval)
  : arguments := {|
  states := states;
  actions := actions;
  max_episode_timesteps := max_episode_timesteps;
  batch_size := batch_size;
  network := PyStr "auto";
  use_beta_distribution := PyBool true;
  memory := PyNone;
  update_frequency := PyNone;
  learning_rate := PyFloat (3 # 10000);
  discount := PyFloat (99 # 100);
  estimate_terminals := PyBool false;
  baseline_network := PyNone;
  baseline_optimizer := PyNone;
  preprocessing := PyNone;
  exploration := PyFloat 0;
  variable_noise := PyFloat 0;
  l2_regularization := PyFloat 0;
  entropy_regularization := PyFloat 0;
  name := PyStr "agent";
  device := PyNone;
  parallel_interactions := PyInt 1;
  config := PyNone;
  saver := PyNone;
  summarizer := PyNone;
  recorder := PyNone
|}.

(** Lines 227-241: [self.spec], the arguments as given. *)
Definition spec_of (a : arguments) : pydict :=
  [("agent", PyStr "vpg");
   ("states", states a); ("actions", actions a);
   ("max_episode_timesteps", max_episode_timesteps a);
   ("batch_size", batch_size a);
   ("network", network a);
   ("use_beta_distribution", use_beta_distribution a);
   ("memory", memory a);
   ("update_frequency", update_frequency a);
   ("learning_rate", learning_rate a);
   ("discount", discount a); ("estimate_terminals", estimate_terminals a);
   ("baseline_network", baseline_network a);
   ("baseline_optimizer", baseline_optimizer a);
   ("preprocessing", preprocessing a);
   ("exploration", exploration a); ("variable_noise", variable_noise a);
   ("l2_regularization", l2_regularization a);
   ("entropy_regularization", entropy_regularization a);
   ("name", name a); ("device", device a);
   ("parallel_interactions", parallel_interactions a);
   ("config", config a); ("saver", saver a);
   ("summarizer", summarizer a); ("recorder", recorder a)].

(** Lines 254-268: the baseline branch; [None] is a failed [assert]
    ([AssertionError]).  The result is [reward_estimation],
    [baseline_policy] and [baseline_objective]. *)
Definition baseline_of (a : arguments) : option (pyval * pyval * pyval) :=
  if is_None (baseline_network a) then
    if negb (negb (truthy (estimate_terminals a))) then None
    else
      let reward_estimation :=
        PyDict [("horizon", PyStr "episode"); ("discount", discount a);
                ("estimate_horizon", PyBool false)] in
      let baseline_policy := PyNone in
      if negb (is_None (baseline_optimizer a)) then None
      else
        let baseline_objective := PyNone in
        Some (reward_estimation, baseline_policy, baseline_objective)
  else
    let reward_estimation :=
      PyDict [("horizon", PyStr "episode"); ("discount", discount a);
              ("estimate_horizon", PyStr "early");
              ("estimate_terminals", estimate_terminals a);
              ("estimate_advantage", PyBool true)] in
    let baseline_policy := PyDict [("network", baseline_network a)] in
    if negb (negb (is_None (baseline_optimizer a))) then None
    else
      let baseline_objective :=
        PyDict [("type", PyStr "value"); ("value", PyStr "state")] in
      Some (reward_estimation, baseline_policy, baseline_objective).

(** [VanillaPolicyGradient.__init__]: [self.spec] and the keyword
    arguments handed to [TensorforceAgent.__init__] (which is not among the
    sources), or [None] for a failed [assert]. *)
Definition init (a : arguments) : option (pydict * pydict) :=
  let spec := spec_of a in
  let policy :=
    PyDict [("network", network a); ("temperature", PyFloat 1);
            ("use_beta_distribution", use_beta_distribution a)] in
  let memory' :=
    if is_None (memory a) then PyDict [("type", PyStr "recent")]
    else PyDict [("type", PyStr "recent"); ("capacity", memory a)] in
  let update :=
    if is_None (update_frequency a) then
      PyDict [("unit", PyStr "episodes"); ("batch_size", batch_size a)]
    else
      PyDict [("unit", PyStr "episodes"); ("batch_size", batch_size a);
              ("frequency", update_frequency a)] in
  let optimizer :=
    PyDict [("type", PyStr "adam"); ("learning_rate", learning_rate a)] in
  let objective := PyStr "policy_gradient" in
  match baseline_of a with
  | None => None
  | Some (reward_estimation, baseline_policy, baseline_objective) =>
      Some (spec,
            [("states", states a); ("actions", actions a);
             ("max_episode_timesteps", max_episode_timesteps a);
             ("parallel_interactions", parallel_interactions a);
             ("config", config a); ("recorder", recorder a);
             ("preprocessing", preprocessing a);
             ("exploration", exploration a);
             ("variable_noise", variable_noise a);
             ("l2_regularization", l2_regularization a);
             ("name", name a); ("device", device a); ("saver", saver a);
             ("summarizer", summarizer a);
             ("policy", policy); ("memory", memory'); ("update", update);
             ("optimizer", optimizer); ("objective", objective);
             ("reward_estimation", reward_estimation);
             ("baseline_policy", baseline_policy);
             ("baseline_optimizer", baseline_optimizer a);
             ("baseline_objective", baseline_objective);
             ("entropy_regularization", entropy_regularization a)])
  end.

End VPG.

(* ================================================================== *)
(** * Properties of the solver *)

Lemma bind_ok {A B : Type} (r : result A) (k : A -> result B) (v : B) :
  bind r k = Ok v -> exists a, r = Ok a /\ k a = Ok v.
Proof.
  destruct r as [a | e]; simpl; intros H.
  - exists a. split; [reflexivity | exact H].
  - discriminate H.
Qed.

Ltac inv_bind H :=
  let a := fresh "a" in
  let Ha := fresh "Ha" in
  apply bind_ok in H; destruct H as [a [Ha H]].

Section SolverFacts.
Context {F : Type} {ops : FloatOps F}.

Lemma zip_with_diag (f : F -> F -> F) (t : tensor F) :
  zip_with f t t = map (fun e => f e e) t.
Proof.
  induction t as [| e t IH]; simpl; [reflexivity | now rewrite IH].
Qed.

Lemma zip_with_length (f : F -> F -> F) (a b : tensor F) :
  List.length a = List.length b ->
  List.length (zip_with f a b) = List.length a.
Proof.
  revert b. induction a as [| u a IH]; intros [| v b]; simpl;
    try reflexivity; try discriminate.
  intros H. f_equal. apply IH. now injection H.
Qed.

(** Element [i] of an element-wise result is the operation applied to the
    elements [i] of the arguments. *)
Lemma zip_with_nth (f : F -> F -> F) (a b : tensor F) (i : nat) (d : F) :
  List.length a = List.length b -> (i < List.length a)%nat ->
  nth i (zip_with f a b) d = f (nth i a d) (nth i b d).
Proof.
  revert b i. induction a as [| u a IH]; intros [| v b] i; simpl;
    try discriminate; try lia.
  intros H Hi. destruct i as [| i]; [reflexivity |].
  apply IH; [now injection H | lia].
Qed.

Lemma add_n_sum_list (l : list F) : l <> [] -> add_n l = Ok (sum_list l).
Proof. destruct l; [congruence | reflexivity]. Qed.

Lemma add_n_ok (l : list F) (s : F) : add_n l = Ok s -> s = sum_list l.
Proof.
  destruct l; simpl; intros H; [discriminate | now injection H].
Qed.

Lemma squared_terms (r : StructuredValue F) :
  map (fun res => reduce_sum (t_mul res res)) (values r) =
  map (fun kt => sum_list (map (fun e => fmul e e) (snd kt))) r.
Proof.
  unfold values. rewrite map_map. apply map_ext. intros [k t]. simpl.
  unfold reduce_sum, t_mul. now rewrite zip_with_diag.
Qed.

Lemma squared_norm_ok (r : StructuredValue F) (s : F) :
  squared_norm r = Ok s -> s = sum_of_squares r.
Proof.
  unfold squared_norm, sum_of_squares. intros H.
  apply add_n_ok in H. now rewrite squared_terms in H.
Qed.

Lemma squared_norm_nonempty (r : StructuredValue F) :
  r <> [] -> squared_norm r = Ok (sum_of_squares r).
Proof.
  intros Hr. unfold squared_norm, sum_of_squares.
  rewrite squared_terms. apply add_n_sum_list.
  destruct r; [congruence | discriminate].
Qed.

Lemma fmap_zeros_like (b : StructuredValue F) :
  fmap (Unary zeros_like) None b = Ok (zero_structure b).
Proof.
  induction b as [| [k t] b IH]; simpl; [reflexivity |].
  rewrite IH. simpl. unfold zeros_like.
  do 3 f_equal. induction t; simpl; [reflexivity | now f_equal].
Qed.

(** A zip over matching keys succeeds and is the key-wise zip. *)
Lemma fmap_zip_ok (f : tensor F -> tensor F -> tensor F)
      (a z : StructuredValue F) :
  compatible a z = true -> fmap (Binary f) (Some z) a = Ok (sv_zip f a z).
Proof.
  induction a as [| [k t] a IH]; simpl; [reflexivity |].
  intros H. apply andb_prop in H. destruct H as [Hk Ha].
  destruct (sv_get k z) as [tz |]; [| discriminate].
  simpl. now rewrite (IH Ha).
Qed.

(** A two-argument callable without [zip_values] raises on the first
    entry. *)
Lemma fmap_binary_unzipped (f : tensor F -> tensor F -> tensor F)
      (a : StructuredValue F) :
  a <> [] -> fmap (Binary f) None a = Err TypeError.
Proof. destruct a as [| [k t] a]; [congruence | reflexivity]. Qed.

Lemma sv_zip_keywise (op : F -> F -> F) (a z : StructuredValue F) :
  compatible a z = true -> keywise op a z (sv_zip (zip_with op) a z).
Proof.
  unfold keywise.
  induction a as [| [k t] a IH]; simpl; intros H; [constructor |].
  apply andb_prop in H. destruct H as [Hk Ha].
  constructor; [| exact (IH Ha)].
  simpl. split; [reflexivity |].
  destruct (sv_get k z) as [tz |]; [| discriminate].
  exists tz. repeat split. now apply Nat.eqb_eq.
Qed.

Lemma zero_structure_nil (b : StructuredValue F) :
  zero_structure b = [] -> b = [].
Proof. destruct b; [reflexivity | discriminate]. Qed.

Lemma sv_zip_nil (f : tensor F -> tensor F -> tensor F)
      (a z : StructuredValue F) :
  sv_zip f a z = [] -> a = [].
Proof. destruct a; [reflexivity | discriminate]. Qed.

(** The scalar of lines 137-142 is never produced. *)
Lemma conjugate_A_conjugate_raises (conjugate : StructuredValue F) :
  conjugate_A_conjugate_of conjugate =
  Err (match conjugate with [] => ValueError | _ :: _ => TypeError end).
Proof. destruct conjugate as [| [k t] c]; reflexivity. Qed.

(** Hence [step] returns no state, whatever its arguments. *)
Lemma step_always_raises (epsilon damping : F)
      (fn_x : StructuredValue F -> StructuredValue F) (st : state F) :
  is_ok (step epsilon damping fn_x st) = false.
Proof.
  destruct st as [[[x c] r] sr]. unfold step.
  destruct (damped_A_conjugate damping fn_x c) as [A | e]; simpl;
    [| reflexivity].
  now rewrite conjugate_A_conjugate_raises.
Qed.

Lemma step_update_invariant (epsilon : F)
      (x conjugate residual : StructuredValue F) (squared_residual : F)
      (A_conjugate : StructuredValue F) (cAc : F) (st' : state F) :
  step_update epsilon x conjugate residual squared_residual A_conjugate cAc
  = Ok st' ->
  residual_invariant st'.
Proof.
  unfold step_update. intros H.
  inv_bind H. inv_bind H. inv_bind H. inv_bind H.
  injection H as <-. simpl. now apply squared_norm_ok.
Qed.

Lemma start_invariant (fn_x : StructuredValue F -> StructuredValue F)
      (x_init : option (StructuredValue F)) (b : StructuredValue F)
      (st : state F) :
  start fn_x x_init b = Ok st -> residual_invariant st.
Proof.
  unfold start. intros H.
  inv_bind H. inv_bind H. inv_bind H.
  injection H as <-. simpl. now apply squared_norm_ok.
Qed.

End SolverFacts.

Section ZeroGuess.
Context {F : Type} {ops : FloatOps F}.







End ZeroGuess.

(* ------------------------------------------------------------------ *)
(** ** [start] *)

(** C1, as stated, fails for the empty structure: [start] with [x_init]
    unset and [b] without keys does not return the zero guess with its
    residual and the sum of squares, because [tf.math.add_n] receives an
    empty list. *)
Lemma start_unset_for_every_b_counterexample :
  ~ exists residual : StructuredValue Q,
      start fn_identity None [] =
      Ok (zero_structure [], residual, residual, sum_of_squares residual).
Proof. intros [residual H]. discriminate H. Qed.

(** C1 (amended).  For every [b] with at least one key and every [fn_x]
    whose image of the zero guess has the keys and shapes of [b], [start]
    with [x_init] unset takes the all-zero structure of [b] as [x_init],
    computes [residual = x_init - fn_x(x_init)] key by key and element by
    element ([b] itself is not used), returns that residual also as
    [conjugate], and returns as [squared_residual] the sum over all keys of
    the sum of the squares of the elements of the residual. *)
Theorem start_unset_zero_guess {F : Type} {ops : FloatOps F}
        (fn_x : StructuredValue F -> StructuredValue F)
        (b : StructuredValue F) :
  b <> [] ->
  compatible (zero_structure b) (fn_x (zero_structure b)) = true ->
  exists residual,
    start fn_x None b =
    Ok (zero_structure b, residual, residual, sum_of_squares residual) /\
    keywise fsub (zero_structure b) (fn_x (zero_structure b)) residual.
Proof.
  intros Hb Hc.
  exists (sv_zip t_sub (zero_structure b) (fn_x (zero_structure b))).
  split; [| now apply sv_zip_keywise].
  unfold start. rewrite fmap_zeros_like. simpl.
  rewrite (fmap_zip_ok _ _ _ Hc). simpl.
  rewrite squared_norm_nonempty; [reflexivity |].
  intros H. apply sv_zip_nil, zero_structure_nil in H. contradiction.
Qed.

Lemma start_unset_zero_guess_witness :
  exists residual,
    start fn_double None b_two_keys =
    Ok (zero_structure b_two_keys, residual, residual,
        sum_of_squares residual) /\
    keywise fsub (zero_structure b_two_keys)
            (fn_double (zero_structure b_two_keys)) residual.
Proof.
  apply (start_unset_zero_guess fn_double b_two_keys).
  - discriminate.
  - reflexivity.
Defined.

(** C6, as stated, fails: for the empty [b], [start] does not succeed with
    [squared_residual = 0] and [solve] does not return the empty [x]. *)
Lemma empty_structure_counterexample :
  start fn_double None [] <> Ok ([], [], [], 0%Q) /\
  solve epsilon_Q 0%Q fn_double 10 None [] <> Ok [].
Proof. split; discriminate. Qed.

(** C6 (amended).  For a [b] without keys (and [x_init] unset or itself
    empty), [start] raises: the key-indexed sum is [tf.math.add_n] of an
    empty list, which is an error and not zero.  No state and no
    [squared_residual] is produced, [next_step] is never evaluated, and
    [solve] propagates the error for every iteration bound. *)
Theorem start_empty_structure_raises {F : Type} {ops : FloatOps F}
        (fn_x : StructuredValue F -> StructuredValue F) :
  start fn_x None [] = Err ValueError /\
  start fn_x (Some []) [] = Err ValueError /\
  forall (epsilon damping : F) (max_iterations : nat),
    solve epsilon damping fn_x max_iterations None [] = Err ValueError.
Proof. repeat split. Qed.




(* ------------------------------------------------------------------ *)
(** ** [next_step] *)

(** C5.  [next_step] is the test [squared_residual >= epsilon] (in exact
    arithmetic: true if and only if [epsilon <= squared_residual]); it does
    not depend on [x], [conjugate] or [residual]; and the [epsilon] it
    compares with is the one that floors both divisions of [step]:
    [alpha = squared_residual / max(conjugate_A_conjugate, epsilon)] and
    [beta = squared_residual' / max(squared_residual, epsilon)], shown on a
    one-key, one-element state. *)
Theorem next_step_threshold :
  (forall (F : Type) (ops : FloatOps F) (epsilon : F)
          (x conjugate residual : StructuredValue F) (squared_residual : F),
      next_step epsilon (x, conjugate, residual, squared_residual)
      = fge squared_residual epsilon) /\
  (forall (epsilon : Q) (x conjugate residual : StructuredValue Q)
          (squared_residual : Q),
      next_step epsilon (x, conjugate, residual, squared_residual) = true
      <-> (epsilon <= squared_residual)%Q) /\
  (forall (F : Type) (ops : FloatOps F) (epsilon : F)
          (x conjugate residual x' conjugate' residual' : StructuredValue F)
          (squared_residual : F),
      next_step epsilon (x, conjugate, residual, squared_residual)
      = next_step epsilon (x', conjugate', residual', squared_residual)) /\
  (forall (F : Type) (ops : FloatOps F) (epsilon : F) (k : string)
          (x c r a squared_residual cAc : F),
      let alpha := fdiv squared_residual (fmaximum cAc epsilon) in
      let r' := fsub r (fmul alpha a) in
      let squared_residual' := fmul r' r' in
      let beta :=
        fdiv squared_residual' (fmaximum squared_residual epsilon) in
      step_update epsilon [(k, [x])] [(k, [c])] [(k, [r])] squared_residual
                  [(k, [a])] cAc
      = Ok ([(k, [fadd x (fmul alpha c)])],
            [(k, [fadd r' (fmul beta c)])],
            [(k, [r'])],
            squared_residual')).
Proof.
  split; [reflexivity |].
  split; [intros; simpl; apply Qle_bool_iff |].
  split; [reflexivity |].
  intros F ops epsilon k x c r a sr cAc. simpl.
  unfold step_update. simpl. rewrite String.eqb_refl. simpl.
  rewrite String.eqb_refl. reflexivity.
Qed.

Lemma next_step_threshold_witness :
  next_step epsilon_Q st_unit = true /\
  next_step epsilon_Q ([], [], [], 0%Q) = false /\
  (epsilon_Q <= 1)%Q.
Proof.
  pose proof next_step_threshold as [_ [Hiff _]].
  split; [reflexivity |].
  split; [reflexivity |].
  apply (Hiff epsilon_Q [("weights", [0%Q])] [("weights", [1%Q])]
              [("weights", [1%Q])] 1%Q).
  reflexivity.
Defined.

(* ------------------------------------------------------------------ *)
(** ** The invariant of the state *)

(** C8 (the code departs from the claim).  [start] keeps the invariant:
    whenever it returns a state, [squared_residual] is the sum over all
    keys of the sum of the squares of the elements of its residual.  For
    [step] the recurrence of the specification keeps it as well (on the
    state [x = 0], [conjugate = residual = 1], [squared_residual = 1] it
    yields residual [0] and [squared_residual = 0]), but [step] itself
    raises [TypeError] there, at line 138, before the lines that sum the
    squares of the new residual are reached; it returns a state on no
    input, so no application of [step] establishes the invariant. *)
Theorem step_never_reaches_invariant :
  (forall (F : Type) (ops : FloatOps F)
          (fn_x : StructuredValue F -> StructuredValue F)
          (x_init : option (StructuredValue F)) (b : StructuredValue F),
      match start fn_x x_init b with
      | Ok st => residual_invariant st
      | Err _ => True
      end) /\
  start fn_identity (Some [("weights", [1%Q])]) []
  = Ok ([("weights", [1])], [("weights", [0])], [("weights", [0])], 0)%Q /\
  residual_invariant (spec_step epsilon_Q 0%Q fn_identity st_unit) /\
  step epsilon_Q 0%Q fn_identity st_unit = Err TypeError /\
  (forall (F : Type) (ops : FloatOps F) (epsilon damping : F)
          (fn_x : StructuredValue F -> StructuredValue F) (st : state F),
      is_ok (step epsilon damping fn_x st) = false).
Proof.
  split.
  { intros F ops fn_x x_init b.
    destruct (start fn_x x_init b) as [st | e] eqn:E; [| exact I].
    exact (start_invariant _ _ _ _ E). }
  split; [reflexivity |].
  split; [reflexivity |].
  split; [reflexivity |].
  intros. apply step_always_raises.
Qed.

(* ------------------------------------------------------------------ *)
(** ** [step] *)

(** C3 (the code departs from the claim).  On the state [x = 0],
    [conjugate = residual = 1], [squared_residual = 1] with [fn_x] the
    identity and no damping, the recurrence of the specification yields
    [x' = 1], [conjugate' = residual' = 0], [squared_residual' = 0], while
    [step] raises [TypeError]: line 138 hands the two-argument lambda to
    [fmap] without [zip_values].  The same holds on every state: [step]
    never returns one. *)
Theorem step_raises_where_recurrence_steps :
  spec_step epsilon_Q 0%Q fn_identity st_unit
  = ([("weights", [1])], [("weights", [0])], [("weights", [0])], 0)%Q /\
  step epsilon_Q 0%Q fn_identity st_unit = Err TypeError /\
  (forall (F : Type) (ops : FloatOps F) (epsilon damping : F)
          (fn_x : StructuredValue F -> StructuredValue F) (st : state F),
      is_ok (step epsilon damping fn_x st) = false).
Proof.
  split; [reflexivity |].
  split; [reflexivity |].
  intros. apply step_always_raises.
Qed.

(** C4 (the code departs from the claim).  With damping [0] the damping
    stage of [step] returns [fn_x(conjugate)] untouched, and with damping
    [1/2] it returns [fn_x(conjugate) + damping * conjugate]; in the
    recurrence of the specification the scalar [conjugate_A_conjugate]
    then grows from [1] to [3/2], that is by damping times the squared norm
    of [conjugate].  In [step] itself that scalar is never computed, with
    or without damping: lines 137-142 raise [TypeError], so [step] yields
    neither the undamped iterate nor a damped scalar. *)
Theorem damped_scalar_never_computed :
  let conjugate := [("weights", [1%Q])] in
  damped_A_conjugate 0%Q fn_identity conjugate = Ok (fn_identity conjugate) /\
  damped_A_conjugate (1 # 2)%Q fn_identity conjugate
  = Ok [("weights", [(3 # 2)%Q])] /\
  Qeq_bool (sv_dot conjugate [("weights", [(3 # 2)%Q])])
           (sv_dot conjugate (fn_identity conjugate)
            + (1 # 2) * sv_dot conjugate conjugate) = true /\
  conjugate_A_conjugate_of conjugate = Err TypeError /\
  step epsilon_Q 0%Q fn_identity st_unit = Err TypeError /\
  step epsilon_Q (1 # 2)%Q fn_identity st_unit = Err TypeError.
Proof. repeat split. Qed.

(* ================================================================== *)
(** * Properties of the wrapper *)

Lemma dict_get_set (k k' : string) (v : value) (d : dict) :
  dict_get k (dict_set k' v d) =
  if String.eqb k k' then Some v else dict_get k d.
Proof.
  induction d as [| [k0 v0] d IH]; simpl.
  - destruct (String.eqb k k'); reflexivity.
  - destruct (String.eqb k' k0) eqn:E0; simpl.
    + apply String.eqb_eq in E0. subst k0.
      destruct (String.eqb k k'); reflexivity.
    + rewrite IH. destruct (String.eqb k k') eqn:E; [| reflexivity].
      apply String.eqb_eq in E. subst k'. now rewrite E0.
Qed.

(** [update] leaves the keys it does not mention alone. *)
Lemma dict_get_update_other (k : string) (other d : dict) :
  existsb (String.eqb k) (map fst other) = false ->
  dict_get k (dict_update d other) = dict_get k d.
Proof.
  unfold dict_update. revert d.
  induction other as [| [k1 v1] other IH]; simpl; intros d H; [reflexivity |].
  apply orb_false_elim in H. destruct H as [Hk Ho].
  rewrite (IH _ Ho). simpl. now rewrite dict_get_set, Hk.
Qed.

(** [update] overwrites the keys it mentions. *)
Lemma dict_get_update (k : string) (v : value) (other d : dict) :
  distinct (map fst other) = true ->
  dict_get k other = Some v ->
  dict_get k (dict_update d other) = Some v.
Proof.
  unfold dict_update. revert d.
  induction other as [| [k1 v1] other IH]; simpl; intros d Hd H;
    [discriminate |].
  apply andb_prop in Hd. destruct Hd as [Hk1 Hd].
  destruct (String.eqb k k1) eqn:E.
  - injection H as ->. apply String.eqb_eq in E. subst k1.
    apply negb_true_iff in Hk1.
    change (dict_get k (dict_update (dict_set k v d) other) = Some v).
    rewrite (dict_get_update_other _ _ _ Hk1).
    now rewrite dict_get_set, String.eqb_refl.
  - now apply IH.
Qed.

Lemma dict_pop_get (k : string) (v : value) (d : dict) :
  dict_get k d = Some v -> exists rest, dict_pop k d = Some (v, rest).
Proof.
  induction d as [| [k0 v0] d IH]; simpl; [discriminate |].
  destruct (String.eqb k k0).
  - intros H. injection H as ->. now exists d.
  - intros H. destruct (IH H) as [rest ->]. now eexists.
Qed.

(** The specification that [build_spec] returns is the base specification
    wrapped in the layers of [applied_layers]. *)
Lemma build_spec_nested (optimizer : value) (multi_step : Z)
      (subsampling_fraction : Q) (clipping_threshold : option Q)
      (optimizing_iterations : Z) (kwargs : dict) :
  nested (applied_layers multi_step subsampling_fraction clipping_threshold
                         optimizing_iterations)
         (build_spec optimizer multi_step subsampling_fraction
                     clipping_threshold optimizing_iterations kwargs)
         (base_spec optimizer kwargs).
Proof.
  unfold applied_layers, build_spec.
  destruct (multi_step >? 1)%Z;
    destruct (negb (Qeq_bool subsampling_fraction 1));
    destruct clipping_threshold;
    destruct (optimizing_iterations >? 0)%Z;
    simpl; repeat constructor.
Qed.

(** On the documented domains of the knobs the guards of the code are the
    tests "differs from the disabled value". *)
Lemma applied_layers_expected (multi_step : Z) (subsampling_fraction : Q)
      (clipping_threshold : option Q) (optimizing_iterations : Z) :
  (1 <= multi_step)%Z -> (0 <= optimizing_iterations)%Z ->
  applied_layers multi_step subsampling_fraction clipping_threshold
                 optimizing_iterations =
  expected_layers multi_step subsampling_fraction clipping_threshold
                  optimizing_iterations.
Proof.
  intros Hm Ho. unfold applied_layers, expected_layers.
  replace (multi_step >? 1)%Z with (negb (multi_step =? 1)%Z)
    by (destruct (Z.gtb_spec multi_step 1), (Z.eqb_spec multi_step 1);
        simpl; lia || reflexivity).
  replace (optimizing_iterations >? 0)%Z
    with (negb (optimizing_iterations =? 0)%Z)
    by (destruct (Z.gtb_spec optimizing_iterations 0),
                 (Z.eqb_spec optimizing_iterations 0);
        simpl; lia || reflexivity).
  destruct (multi_step =? 1)%Z, (Qeq_bool subsampling_fraction 1),
    clipping_threshold, (optimizing_iterations =? 0)%Z; reflexivity.
Qed.

(** The two constructions named in the specification, by their type tags. *)
Example multi_step_over_clipping :
  type_tags 4 (build_spec (VStr "adam") 3 1 (Some 1%Q) 0 [])
  = [VStr "multi_step"; VStr "clipping_step"; VStr "adam"].
Proof. reflexivity. Qed.

Example line_search_only :
  type_tags 4 (build_spec (VStr "adam") 1 1 None 5 [])
  = [VStr "optimizing_step"; VStr "adam"].
Proof. reflexivity. Qed.

Example all_four_layers :
  type_tags 4 (build_spec (VStr "adam") 2 (1 # 2) (Some 1%Q) 5 [])
  = [VStr "multi_step"; VStr "subsampling_step"; VStr "clipping_step";
     VStr "optimizing_step"; VStr "adam"].
Proof. reflexivity. Qed.

(** C2, as stated, fails: [multi_step = 0] differs from the disabled value
    [1], yet no multi-step layer is added (the guard is [multi_step > 1]);
    likewise [optimizing_iterations = -3] differs from [0] and adds no
    line-search layer. *)
Lemma knob_differs_without_layer_counterexample :
  ~ nested (expected_layers 0 1 None 0)
           (build_spec (VStr "adam") 0 1 None 0 [])
           (base_spec (VStr "adam") []) /\
  ~ nested (expected_layers 1 1 None (-3))
           (build_spec (VStr "adam") 1 1 None (-3) [])
           (base_spec (VStr "adam") []).
Proof.
  split; intros H; inversion H.
Qed.

(** C2 (amended).  For every base optimizer, every pass-through keyword
    arguments and every combination of the knobs, the specification built
    is the base specification wrapped, from the inside out, in the
    line-search layer, the clipping layer, the subsampling layer and the
    multi-step layer, each carrying its knob, where the multi-step layer is
    present if and only if [multi_step > 1], the subsampling layer if and
    only if [subsampling_fraction] is not [1.0], the clipping layer if and
    only if [clipping_threshold] is set, and the line-search layer if and
    only if [optimizing_iterations > 0].  On the documented domains of the
    knobs ([multi_step] an int > 0, [optimizing_iterations] an int >= 0)
    these are the layers whose knob differs from its disabled value. *)
Theorem wrapper_layers_by_guards (optimizer : value) (multi_step : Z)
        (subsampling_fraction : Q) (clipping_threshold : option Q)
        (optimizing_iterations : Z) (kwargs : dict) :
  let layers :=
    applied_layers multi_step subsampling_fraction clipping_threshold
                   optimizing_iterations in
  nested layers
         (build_spec optimizer multi_step subsampling_fraction
                     clipping_threshold optimizing_iterations kwargs)
         (base_spec optimizer kwargs) /\
  has_layer "multi_step" layers = (multi_step >? 1)%Z /\
  has_layer "subsampling_step" layers
  = negb (Qeq_bool subsampling_fraction 1) /\
  has_layer "clipping_step" layers
  = match clipping_threshold with Some _ => true | None => false end /\
  has_layer "optimizing_step" layers = (optimizing_iterations >? 0)%Z /\
  ((1 <= multi_step)%Z -> (0 <= optimizing_iterations)%Z ->
   layers = expected_layers multi_step subsampling_fraction
                            clipping_threshold optimizing_iterations).
Proof.
  intros layers. subst layers.
  split; [apply build_spec_nested |].
  split; [| split; [| split; [| split]]];
    try (unfold applied_layers, has_layer;
         destruct (multi_step >? 1)%Z;
         destruct (negb (Qeq_bool subsampling_fraction 1));
         destruct clipping_threshold;
         destruct (optimizing_iterations >? 0)%Z; reflexivity).
  intros Hm Ho. now apply applied_layers_expected.
Qed.

Lemma wrapper_layers_by_guards_witness :
  nested [("multi_step", "num_steps", VInt 3);
          ("clipping_step", "threshold", VFloat 1)]
         (build_spec (VStr "adam") 3 1 (Some 1%Q) 0
                     [("learning_rate", VFloat (1 # 1000))])
         [("type", VStr "adam"); ("learning_rate", VFloat (1 # 1000))] /\
  applied_layers 3 1 (Some 1%Q) 0 = expected_layers 3 1 (Some 1%Q) 0.
Proof.
  destruct (wrapper_layers_by_guards
              (VStr "adam") 3 1 (Some 1%Q) 0
              [("learning_rate", VFloat (1 # 1000))])
    as [Hn [_ [_ [_ [_ He]]]]].
  split; [exact Hn | apply He; lia].
Defined.

(** C7.  For every configuration, if the type of the outermost
    specification built is a name that the registry [optimizer_modules]
    does not contain, [UpdateModifierWrapper] raises (the [KeyError] of the
    registry lookup): no class is substituted and no optimizer is
    constructed. *)
Theorem unregistered_type_raises (Optimizer : Type)
        (optimizer_modules : string -> option (constructor Optimizer))
        (optimizer : value) (multi_step : Z) (subsampling_fraction : Q)
        (clipping_threshold : option Q) (optimizing_iterations : Z)
        (summary_labels name arguments_spec : value) (kwargs : dict)
        (type_name : string) :
  dict_get "type" (build_spec optimizer multi_step subsampling_fraction
                              clipping_threshold optimizing_iterations kwargs)
  = Some (VStr type_name) ->
  optimizer_modules type_name = None ->
  UpdateModifierWrapper Optimizer optimizer_modules optimizer multi_step
                        subsampling_fraction clipping_threshold
                        optimizing_iterations summary_labels name
                        arguments_spec kwargs
  = Err KeyError.
Proof.
  intros Hty Hreg. unfold UpdateModifierWrapper.
  destruct (dict_pop_get _ _ _ Hty) as [rest ->].
  simpl. now rewrite Hreg.
Qed.

Lemma unregistered_type_raises_witness :
  UpdateModifierWrapper built registry_example (VStr "adamm") 1 1 None 0
                        VNone VNone VNone
                        [("learning_rate", VFloat (1 # 1000))]
  = Err KeyError.
Proof.
  apply (unregistered_type_raises built registry_example (VStr "adamm")
           1 1 None 0 VNone VNone VNone
           [("learning_rate", VFloat (1 # 1000))] "adamm");
    reflexivity.
Defined.

(** C10.  If the pass-through keyword arguments (a dict, so with distinct
    keys) contain the key ['type'] with value [v], then the base
    specification has type [v] in place of the [optimizer] argument; it is
    the innermost layer of the specification built, whatever the knobs;
    and with all knobs disabled the class constructed is the one
    registered for [v]. *)
Theorem kwargs_type_replaces_optimizer (Optimizer : Type)
        (optimizer_modules : string -> option (constructor Optimizer))
        (optimizer : value) (multi_step : Z) (subsampling_fraction : Q)
        (clipping_threshold : option Q) (optimizing_iterations : Z)
        (summary_labels name arguments_spec : value) (kwargs : dict)
        (v : value) :
  distinct (map fst kwargs) = true ->
  dict_get "type" kwargs = Some v ->
  dict_get "type" (base_spec optimizer kwargs) = Some v /\
  nested (applied_layers multi_step subsampling_fraction clipping_threshold
                         optimizing_iterations)
         (build_spec optimizer multi_step subsampling_fraction
                     clipping_threshold optimizing_iterations kwargs)
         (base_spec optimizer kwargs) /\
  exists rest,
    UpdateModifierWrapper Optimizer optimizer_modules optimizer 1 1 None 0
                          summary_labels name arguments_spec kwargs
    = (optimizer_cls <- registry_lookup Optimizer optimizer_modules v ;;
       optimizer_cls rest summary_labels name arguments_spec).
Proof.
  intros Hd Hty.
  assert (Hbase : dict_get "type" (base_spec optimizer kwargs) = Some v).
  { unfold base_spec. now apply dict_get_update. }
  split; [exact Hbase |].
  split; [apply build_spec_nested |].
  destruct (dict_pop_get _ _ _ Hbase) as [rest Hpop].
  exists rest. unfold UpdateModifierWrapper.
  change (build_spec optimizer 1 1 None 0 kwargs)
    with (base_spec optimizer kwargs).
  now rewrite Hpop.
Qed.

Lemma kwargs_type_replaces_optimizer_witness :
  dict_get "type" (base_spec (VStr "sgd") [("type", VStr "adam")])
  = Some (VStr "adam") /\
  nested (applied_layers 1 1 None 5)
         (build_spec (VStr "sgd") 1 1 None 5 [("type", VStr "adam")])
         (base_spec (VStr "sgd") [("type", VStr "adam")]) /\
  exists rest,
    UpdateModifierWrapper built registry_example (VStr "sgd") 1 1 None 0
                          VNone VNone VNone [("type", VStr "adam")]
    = (optimizer_cls <- registry_lookup built registry_example (VStr "adam") ;;
       optimizer_cls rest VNone VNone VNone).
Proof.
  apply (kwargs_type_replaces_optimizer built registry_example (VStr "sgd")
           1 1 None 5 VNone VNone VNone [("type", VStr "adam")] (VStr "adam"));
    reflexivity.
Defined.

(* ================================================================== *)
(** * Further properties of the solver *)

Lemma bind_Ok {A B : Type} (a : A) (k : A -> result B) :
  bind (Ok a) k = k a.
Proof. reflexivity. Qed.

Lemma bind_if {A B : Type} (c : bool) (a : A) (e : error)
      (k : A -> result B) :
  bind (if c then Ok a else Err e) k = if c then k a else Err e.
Proof. destruct c; reflexivity. Qed.

Section ZipFacts.
Context {F : Type} {ops : FloatOps F}.

Lemma covers_of_compatible (a z : StructuredValue F) :
  compatible a z = true -> covers a z = true.
Proof.
  unfold compatible, covers.
  induction a as [| [k t] a IH]; simpl; [reflexivity |].
  intros H. apply andb_prop in H. destruct H as [Hk Ha].
  rewrite (IH Ha). destruct (sv_get k z); [reflexivity | discriminate].
Qed.

Lemma compatible_of_covers (a z : StructuredValue F) :
  covers a z = true -> shapes_agree a z = true -> compatible a z = true.
Proof.
  unfold compatible, covers, shapes_agree.
  induction a as [| [k t] a IH]; simpl; [reflexivity |].
  intros Hc Hs. apply andb_prop in Hc. destruct Hc as [Hk Hc].
  apply andb_prop in Hs. destruct Hs as [Hks Hs].
  rewrite (IH Hc Hs). destruct (sv_get k z); [| discriminate].
  now rewrite Hks.
Qed.

(** A zip either raises [KeyError] or is the key-wise zip. *)
Lemma fmap_zip_outcome (f : tensor F -> tensor F -> tensor F)
      (a z : StructuredValue F) :
  fmap (Binary f) (Some z) a =
  if covers a z then Ok (sv_zip f a z) else Err KeyError.
Proof.
  induction a as [| [k t] a IH]; simpl; [reflexivity |].
  destruct (sv_get k z) as [tz |]; simpl; [| reflexivity].
  rewrite IH. destruct (covers a z); reflexivity.
Qed.

Lemma keys_sv_zip (f : tensor F -> tensor F -> tensor F)
      (a z : StructuredValue F) :
  keys (sv_zip f a z) = keys a.
Proof. unfold keys, sv_zip. rewrite map_map. reflexivity. Qed.

Lemma covers_keys (a a' z : StructuredValue F) :
  keys a = keys a' -> covers a z = covers a' z.
Proof.
  unfold keys, covers. revert a'.
  induction a as [| [k t] a IH]; intros [| [k' t'] a']; simpl;
    try reflexivity; try discriminate.
  intros H. injection H as -> H. now rewrite (IH _ H).
Qed.

Lemma compatible_structure (a a' z : StructuredValue F) :
  structure_of a = structure_of a' -> compatible a z = compatible a' z.
Proof.
  unfold structure_of, compatible. revert a'.
  induction a as [| [k t] a IH]; intros [| [k' t'] a']; simpl;
    try reflexivity; try discriminate.
  intros H. injection H as -> Hl H. now rewrite Hl, (IH _ H).
Qed.

Lemma keys_of_structure (a a' : StructuredValue F) :
  structure_of a = structure_of a' -> keys a = keys a'.
Proof.
  intros H. unfold keys.
  assert (E : forall b : StructuredValue F,
             map fst b = map fst (structure_of b)).
  { intros b. unfold structure_of. rewrite map_map. reflexivity. }
  now rewrite (E a), (E a'), H.
Qed.

(** A zip with an operation that keeps the shape of its first argument
    keeps the structure. *)
Lemma structure_of_sv_zip (f : tensor F -> tensor F -> tensor F)
      (a z : StructuredValue F) :
  (forall t u, List.length u = List.length t ->
               List.length (f t u) = List.length t) ->
  compatible a z = true ->
  structure_of (sv_zip f a z) = structure_of a.
Proof.
  intros Hf. unfold structure_of, compatible, sv_zip.
  induction a as [| [k t] a IH]; simpl; [reflexivity |].
  intros H. apply andb_prop in H. destruct H as [Hk Ha].
  rewrite (IH Ha). destruct (sv_get k z) as [tz |]; [| discriminate].
  apply Nat.eqb_eq in Hk. now rewrite (Hf t tz Hk).
Qed.

Lemma zip_with_map_r (f : F -> F -> F) (h : F -> F) (t u : tensor F) :
  zip_with f t (map h u) = zip_with (fun p q => f p (h q)) t u.
Proof.
  revert u. induction t as [| p t IH]; intros [| q u]; simpl;
    try reflexivity.
  now rewrite IH.
Qed.

(** [t + a * u] and [t - a * u] as one element-wise operation. *)
Lemma sv_zip_add_scaled (a : F) (x z : StructuredValue F) :
  sv_zip (fun t u => t_add t (t_scale a u)) x z =
  sv_zip (zip_with (fun p q => fadd p (fmul a q))) x z.
Proof.
  unfold sv_zip. apply map_ext. intros [k t]. simpl.
  unfold t_add, t_scale. now rewrite zip_with_map_r.
Qed.

Lemma sv_zip_sub_scaled (a : F) (x z : StructuredValue F) :
  sv_zip (fun t u => t_sub t (t_scale a u)) x z =
  sv_zip (zip_with (fun p q => fsub p (fmul a q))) x z.
Proof.
  unfold sv_zip. apply map_ext. intros [k t]. simpl.
  unfold t_sub, t_scale. now rewrite zip_with_map_r.
Qed.

Lemma zip_with_keeps_shape (g : F -> F -> F) (t u : tensor F) :
  List.length u = List.length t ->
  List.length (zip_with g t u) = List.length t.
Proof. intros H. apply zip_with_length. now symmetry. Qed.

Lemma structure_zero_structure (b b' : StructuredValue F) :
  structure_of b = structure_of b' -> zero_structure b = zero_structure b'.
Proof.
  unfold structure_of, zero_structure. revert b'.
  induction b as [| [k t] b IH]; intros [| [k' t'] b']; simpl;
    try reflexivity; try discriminate.
  intros H. injection H as -> Hl H. now rewrite Hl, (IH _ H).
Qed.

(** [start] in closed form. *)
Lemma start_closed_form (fn_x : StructuredValue F -> StructuredValue F)
      (x_init : option (StructuredValue F)) (b : StructuredValue F) :
  let x0 := initial_guess x_init b in
  let residual := sv_zip t_sub x0 (fn_x x0) in
  start fn_x x_init b =
  if covers x0 (fn_x x0) then
    match x0 with
    | [] => Err ValueError
    | _ :: _ => Ok (x0, residual, residual, sum_of_squares residual)
    end
  else Err KeyError.
Proof.
  intros x0 residual. unfold start.
  assert (E : match x_init with
              | None => fmap (Unary zeros_like) None b
              | Some x => Ok x
              end = Ok x0).
  { destruct x_init; [reflexivity | apply fmap_zeros_like]. }
  rewrite E. simpl. rewrite fmap_zip_outcome.
  destruct (covers x0 (fn_x x0)); simpl; [| reflexivity].
  fold residual. destruct x0 as [| kt x0'] eqn:Ex; [reflexivity |].
  rewrite squared_norm_nonempty; [reflexivity |].
  subst residual. discriminate.
Qed.

(** [step_update] in closed form. *)
Lemma step_update_closed_form (epsilon : F)
      (x conjugate residual : StructuredValue F) (squared_residual : F)
      (A_conjugate : StructuredValue F) (cAc : F) :
  let alpha := fdiv squared_residual (fmaximum cAc epsilon) in
  let next_x := sv_zip (fun t conj => t_add t (t_scale alpha conj))
                       x conjugate in
  let next_residual :=
    sv_zip (fun res A_conj => t_sub res (t_scale alpha A_conj))
           residual A_conjugate in
  let beta := fdiv (sum_of_squares next_residual)
                   (fmaximum squared_residual epsilon) in
  let next_conjugate :=
    sv_zip (fun res conj => t_add res (t_scale beta conj))
           next_residual conjugate in
  step_update epsilon x conjugate residual squared_residual A_conjugate cAc =
  if covers x conjugate && covers residual A_conjugate
     && covers residual conjugate
  then match residual with
       | [] => Err ValueError
       | _ :: _ => Ok (next_x, next_conjugate, next_residual,
                       sum_of_squares next_residual)
       end
  else Err KeyError.
Proof.
  cbv zeta. unfold step_update.
  rewrite fmap_zip_outcome, bind_if.
  destruct (covers x conjugate); cbn [andb]; [| reflexivity]. cbv beta.
  rewrite fmap_zip_outcome, bind_if.
  destruct (covers residual A_conjugate); cbn [andb]; [| reflexivity].
  cbv beta.
  destruct residual as [| kt residual']; [reflexivity |].
  rewrite squared_norm_nonempty by discriminate.
  rewrite bind_Ok. cbv beta.
  rewrite fmap_zip_outcome, bind_if.
  match goal with
  | |- context [covers (sv_zip ?f ?a ?z) conjugate] =>
      rewrite (covers_keys (sv_zip f a z) a conjugate (keys_sv_zip f a z))
  end.
  destruct (covers (kt :: residual') conjugate); reflexivity.
Qed.

End ZipFacts.

(* ------------------------------------------------------------------ *)
(** ** [start], both branches *)

(** X1.  With [x_init] given (not empty, and [fn_x(x_init)] of its keys
    and shapes), [start] returns [x_init] itself, the residual
    [x_init - fn_x(x_init)] key by key and element by element, the same
    residual as conjugate, and its sum of squares; the right-hand side [b]
    plays no part. *)
Theorem start_with_given_guess {F : Type} {ops : FloatOps F}
        (fn_x : StructuredValue F -> StructuredValue F)
        (x_init b : StructuredValue F) :
  x_init <> [] ->
  compatible x_init (fn_x x_init) = true ->
  exists residual,
    start fn_x (Some x_init) b =
    Ok (x_init, residual, residual, sum_of_squares residual) /\
    keywise fsub x_init (fn_x x_init) residual.
Proof.
  intros Hx Hc. exists (sv_zip t_sub x_init (fn_x x_init)).
  split; [| now apply sv_zip_keywise].
  pose proof (start_closed_form fn_x (Some x_init) b) as E.
  cbv zeta in E. simpl initial_guess in E. rewrite E.
  rewrite (covers_of_compatible _ _ Hc).
  destruct x_init; [contradiction | reflexivity].
Qed.

Lemma start_with_given_guess_witness :
  exists residual,
    start fn_double (Some b_two_keys) [] =
    Ok (b_two_keys, residual, residual, sum_of_squares residual) /\
    keywise fsub b_two_keys (fn_double b_two_keys) residual.
Proof.
  apply (@start_with_given_guess Q QFloat fn_double b_two_keys []).
  - discriminate.
  - reflexivity.
Defined.

(** X2.  [start] never reads the entries of [b]: with [x_init] given its
    result is the same for every [b], and with [x_init] unset it is the
    same for any two right-hand sides of one structure (keys and shapes). *)
Theorem start_ignores_entries_of_b {F : Type} {ops : FloatOps F}
        (fn_x : StructuredValue F -> StructuredValue F) :
  (forall x_init b b' : StructuredValue F,
      start fn_x (Some x_init) b = start fn_x (Some x_init) b') /\
  (forall b b' : StructuredValue F,
      structure_of b = structure_of b' ->
      start fn_x None b = start fn_x None b').
Proof.
  split; [reflexivity |].
  intros b b' H.
  pose proof (start_closed_form fn_x None b) as E.
  pose proof (start_closed_form fn_x None b') as E'.
  cbv zeta in E, E'. simpl initial_guess in E, E'.
  rewrite E, E'. now rewrite (structure_zero_structure b b' H).
Qed.

Lemma start_ignores_entries_of_b_witness :
  start fn_double None b_two_keys =
  start fn_double None [("weights", [5; 7]); ("bias", [-4])]%Q.
Proof.
  apply (proj2 (@start_ignores_entries_of_b Q QFloat fn_double)).
  reflexivity.
Defined.

(** X3.  The outcomes of [start], with [x0] the initial guess ([x_init],
    or the zeros of [b]'s structure), when the tensors that [x0] and
    [fn_x(x0)] hold under a common key have one shape: it raises
    [KeyError] exactly when [fn_x(x0)] lacks a key of [x0], it raises
    [ValueError] exactly when [x0] has no keys, it never raises
    [TypeError], and it returns a state exactly when [x0] has a key and
    [fn_x(x0)] has all keys of [x0]. *)
Theorem start_outcomes {F : Type} {ops : FloatOps F}
        (fn_x : StructuredValue F -> StructuredValue F)
        (x_init : option (StructuredValue F)) (b : StructuredValue F) :
  let x0 := initial_guess x_init b in
  shapes_agree x0 (fn_x x0) = true ->
  (start fn_x x_init b = Err KeyError <-> covers x0 (fn_x x0) = false) /\
  (start fn_x x_init b = Err ValueError <-> x0 = []) /\
  start fn_x x_init b <> Err TypeError /\
  (is_ok (start fn_x x_init b) = true <->
   covers x0 (fn_x x0) = true /\ x0 <> []).
Proof.
  intros x0 _.
  pose proof (start_closed_form fn_x x_init b) as E.
  cbv zeta in E. fold x0 in E. rewrite E. clear E.
  generalize (fn_x x0). intros fx.
  destruct x0 as [| kt x0'].
  - simpl. repeat split; try discriminate; try reflexivity.
    intros [_ H]. now contradiction H.
  - destruct (covers (kt :: x0') fx); simpl.
    + repeat split; try discriminate; try reflexivity.
    + repeat split; try discriminate; try reflexivity.
      intros [H _]. discriminate H.
Qed.

Lemma start_outcomes_witness :
  start (fun _ => [("weights", [1; 1]%Q)]) (Some b_two_keys) []
  = Err KeyError /\
  start fn_double (Some []) b_two_keys = Err ValueError /\
  is_ok (start fn_double None b_two_keys) = true.
Proof.
  split; [| split].
  - apply (proj2 (proj1 (@start_outcomes Q QFloat
                           (fun _ => [("weights", [1; 1]%Q)])
                           (Some b_two_keys) [] eq_refl))).
    reflexivity.
  - apply (proj2 (proj1 (proj2 (@start_outcomes Q QFloat fn_double
                                  (Some []) b_two_keys eq_refl)))).
    reflexivity.
  - apply (proj2 (proj2 (proj2 (proj2 (@start_outcomes Q QFloat fn_double
                                         None b_two_keys eq_refl))))).
    split; [reflexivity | discriminate].
Defined.

(** X4.  A state returned by [start] has the initial guess as [x], one
    and the same structure as conjugate and residual, with the keys of
    [x] in the order of [x]; if [fn_x(x)] has the shapes of [x], the
    residual has them too. *)
Theorem start_keeps_structure {F : Type} {ops : FloatOps F}
        (fn_x : StructuredValue F -> StructuredValue F)
        (x_init : option (StructuredValue F)) (b : StructuredValue F)
        (x conjugate residual : StructuredValue F) (squared_residual : F) :
  start fn_x x_init b = Ok (x, conjugate, residual, squared_residual) ->
  x = initial_guess x_init b /\
  conjugate = residual /\
  keys residual = keys x /\
  (compatible x (fn_x x) = true -> structure_of residual = structure_of x).
Proof.
  pose proof (start_closed_form fn_x x_init b) as E.
  cbv zeta in E. rewrite E. clear E.
  destruct (covers (initial_guess x_init b) (fn_x (initial_guess x_init b)));
    [| discriminate].
  destruct (initial_guess x_init b) as [| kt x0'] eqn:Ex; [discriminate |].
  remember (sv_zip t_sub (kt :: x0') (fn_x (kt :: x0'))) as r0 eqn:Er.
  intros H. injection H as <- <- <- _.
  repeat split; subst r0.
  - apply keys_sv_zip.
  - intros Hc. apply structure_of_sv_zip; [| exact Hc].
    intros t u. apply zip_with_keeps_shape.
Qed.

Lemma start_keeps_structure_witness :
  keys [("weights", [-1; -2]); ("bias", [-3])]%Q = keys b_two_keys.
Proof.
  apply (@start_keeps_structure Q QFloat fn_double (Some b_two_keys) []
           b_two_keys
           [("weights", [-1; -2]); ("bias", [-3])]%Q
           [("weights", [-1; -2]); ("bias", [-3])]%Q 14%Q).
  reflexivity.
Defined.

(* ------------------------------------------------------------------ *)
(** ** The stages of [step] *)

(** X5.  The damping stage of [step] (lines 119-135), when the tensors
    that [fn_x(conjugate)] and [conjugate] hold under a common key have one
    shape.  The conditional traces the damped branch whatever the damping
    is, so the stage raises [KeyError] if [fn_x(conjugate)] has a key that
    [conjugate] lacks, also with damping zero.  When [conjugate] has all
    keys of [fn_x(conjugate)], it returns [fn_x(conjugate)] as it is for
    damping equal to zero, and [fn_x(conjugate) + damping * conjugate],
    key by key and element by element, otherwise. *)
Theorem damping_stage {F : Type} {ops : FloatOps F} (damping : F)
        (fn_x : StructuredValue F -> StructuredValue F)
        (conjugate : StructuredValue F) :
  shapes_agree (fn_x conjugate) conjugate = true ->
  (covers (fn_x conjugate) conjugate = false ->
   damped_A_conjugate damping fn_x conjugate = Err KeyError) /\
  (covers (fn_x conjugate) conjugate = true ->
   fequal damping fzero = true ->
   damped_A_conjugate damping fn_x conjugate = Ok (fn_x conjugate)) /\
  (covers (fn_x conjugate) conjugate = true ->
   fequal damping fzero = false ->
   exists A_conjugate,
     damped_A_conjugate damping fn_x conjugate = Ok A_conjugate /\
     keywise (fun p q => fadd p (fmul damping q))
             (fn_x conjugate) conjugate A_conjugate).
Proof.
  intros Hs. unfold damped_A_conjugate, cond. rewrite bind_Ok.
  rewrite fmap_zip_outcome, bind_if.
  repeat split.
  - intros ->. reflexivity.
  - intros -> ->. reflexivity.
  - intros Hc Hd. rewrite Hc, Hd.
    exists (sv_zip (zip_with (fun p q => fadd p (fmul damping q)))
                   (fn_x conjugate) conjugate).
    split; [now rewrite sv_zip_add_scaled |].
    apply sv_zip_keywise. now apply compatible_of_covers.
Qed.

Lemma damping_stage_witness :
  damped_A_conjugate 0%Q (fun _ => b_two_keys) [("weights", [1; 1]%Q)]
  = Err KeyError /\
  damped_A_conjugate 0%Q fn_double b_two_keys = Ok (fn_double b_two_keys) /\
  exists A_conjugate,
    damped_A_conjugate (1 # 2)%Q fn_double b_two_keys = Ok A_conjugate /\
    keywise (fun p q => p + (1 # 2) * q)%Q
            (fn_double b_two_keys) b_two_keys A_conjugate.
Proof.
  split; [| split].
  - apply (proj1 (@damping_stage Q QFloat 0%Q (fun _ => b_two_keys)
                   [("weights", [1; 1]%Q)] eq_refl)).
    reflexivity.
  - apply (proj1 (proj2 (@damping_stage Q QFloat 0%Q fn_double b_two_keys
                           eq_refl)));
      reflexivity.
  - apply (proj2 (proj2 (@damping_stage Q QFloat (1 # 2)%Q
                           fn_double b_two_keys eq_refl)));
      reflexivity.
Defined.

(** X6.  The update of [step] (lines 144-173) on structures of matching
    keys and shapes, with a residual of at least one key: with
    [alpha = squared_residual / max(conjugate_A_conjugate, epsilon)] it
    returns [x + alpha * conjugate], the new residual
    [residual - alpha * A_conjugate], its sum of squares, and with
    [beta = squared_residual' / max(squared_residual, epsilon)] the new
    conjugate [residual' + beta * conjugate], all key by key and element
    by element. *)
Theorem step_update_elementwise {F : Type} {ops : FloatOps F} (epsilon : F)
        (x conjugate residual : StructuredValue F) (squared_residual : F)
        (A_conjugate : StructuredValue F) (conjugate_A_conjugate : F) :
  residual <> [] ->
  compatible x conjugate = true ->
  compatible residual A_conjugate = true ->
  compatible residual conjugate = true ->
  let alpha :=
    fdiv squared_residual (fmaximum conjugate_A_conjugate epsilon) in
  exists next_x next_conjugate next_residual,
    step_update epsilon x conjugate residual squared_residual
                A_conjugate conjugate_A_conjugate
    = Ok (next_x, next_conjugate, next_residual,
          sum_of_squares next_residual) /\
    keywise (fun p q => fadd p (fmul alpha q)) x conjugate next_x /\
    keywise (fun p q => fsub p (fmul alpha q))
            residual A_conjugate next_residual /\
    keywise (fun p q =>
               fadd p (fmul (fdiv (sum_of_squares next_residual)
                                  (fmaximum squared_residual epsilon)) q))
            next_residual conjugate next_conjugate.
Proof.
  intros Hr Hxc HrA Hrc alpha.
  pose proof (step_update_closed_form epsilon x conjugate residual
                squared_residual A_conjugate conjugate_A_conjugate) as E.
  cbv zeta in E. fold alpha in E.
  rewrite (covers_of_compatible _ _ Hxc), (covers_of_compatible _ _ HrA),
    (covers_of_compatible _ _ Hrc) in E.
  cbn [andb] in E.
  rewrite !sv_zip_add_scaled, !sv_zip_sub_scaled in E.
  set (nr := sv_zip (zip_with (fun p q => fsub p (fmul alpha q)))
                    residual A_conjugate) in *.
  assert (Hs : structure_of nr = structure_of residual).
  { apply structure_of_sv_zip; [| exact HrA].
    intros t u. apply zip_with_keeps_shape. }
  eexists _, _, nr. split; [| split; [| split]].
  - rewrite E. destruct residual; [contradiction | reflexivity].
  - now apply sv_zip_keywise.
  - now apply sv_zip_keywise.
  - apply sv_zip_keywise. now rewrite (compatible_structure _ _ _ Hs).
Qed.

Lemma step_update_elementwise_witness :
  let alpha := fdiv 14%Q (fmaximum 28%Q epsilon_Q) in
  exists next_x next_conjugate next_residual,
    step_update epsilon_Q (zero_structure b_two_keys) b_two_keys b_two_keys
                14%Q (fn_double b_two_keys) 28%Q
    = Ok (next_x, next_conjugate, next_residual,
          sum_of_squares next_residual) /\
    keywise (fun p q => fadd p (fmul alpha q))
            (zero_structure b_two_keys) b_two_keys next_x /\
    keywise (fun p q => fsub p (fmul alpha q))
            b_two_keys (fn_double b_two_keys) next_residual /\
    keywise (fun p q =>
               fadd p (fmul (fdiv (sum_of_squares next_residual)
                                  (fmaximum 14%Q epsilon_Q)) q))
            next_residual b_two_keys next_conjugate.
Proof.
  apply (@step_update_elementwise Q QFloat epsilon_Q
           (zero_structure b_two_keys) b_two_keys b_two_keys 14%Q
           (fn_double b_two_keys) 28%Q); try reflexivity.
  discriminate.
Defined.

(** X7.  The outcomes of the update of [step], when the tensors that [x]
    and [conjugate], [residual] and [A_conjugate], [residual] and
    [conjugate] hold under a common key have one shape: it raises
    [KeyError] exactly when [conjugate] lacks a key of [x] or of
    [residual], or [A_conjugate] lacks a key of [residual]; it raises
    [ValueError] exactly when the keys are there and [residual] has none;
    it never raises [TypeError]; it returns a state exactly when the keys
    are there and [residual] has one. *)
Theorem step_update_outcomes {F : Type} {ops : FloatOps F} (epsilon : F)
        (x conjugate residual : StructuredValue F) (squared_residual : F)
        (A_conjugate : StructuredValue F) (conjugate_A_conjugate : F) :
  let keys_present :=
    covers x conjugate && covers residual A_conjugate
    && covers residual conjugate in
  let outcome :=
    step_update epsilon x conjugate residual squared_residual
                A_conjugate conjugate_A_conjugate in
  shapes_agree x conjugate = true ->
  shapes_agree residual A_conjugate = true ->
  shapes_agree residual conjugate = true ->
  (outcome = Err KeyError <-> keys_present = false) /\
  (outcome = Err ValueError <-> keys_present = true /\ residual = []) /\
  outcome <> Err TypeError /\
  (is_ok outcome = true <-> keys_present = true /\ residual <> []).
Proof.
  intros keys_present outcome _ _ _. subst outcome.
  pose proof (step_update_closed_form epsilon x conjugate residual
                squared_residual A_conjugate conjugate_A_conjugate) as E.
  cbv zeta in E. fold keys_present in E. rewrite E. clear E.
  destruct keys_present; destruct residual as [| kt residual']; simpl;
    repeat split; try discriminate; try reflexivity;
    try (intros [H1 H2]; (discriminate H1 || discriminate H2
                          || now contradiction H2)).
Qed.

Lemma step_update_outcomes_witness :
  step_update epsilon_Q b_two_keys [("weights", [1; 1]%Q)] b_two_keys 14%Q
              b_two_keys 1%Q = Err KeyError /\
  step_update epsilon_Q [] [] [] 0%Q [] 1%Q = Err ValueError /\
  is_ok (step_update epsilon_Q (zero_structure b_two_keys) b_two_keys
                     b_two_keys 14%Q (fn_double b_two_keys) 28%Q) = true.
Proof.
  split; [| split].
  - apply (proj2 (proj1 (@step_update_outcomes Q QFloat epsilon_Q
                           b_two_keys [("weights", [1; 1]%Q)] b_two_keys
                           14%Q b_two_keys 1%Q eq_refl eq_refl eq_refl))).
    reflexivity.
  - apply (proj2 (proj1 (proj2 (@step_update_outcomes Q QFloat epsilon_Q
                                  [] [] [] 0%Q [] 1%Q
                                  eq_refl eq_refl eq_refl)))).
    split; reflexivity.
  - apply (proj2 (proj2 (proj2 (proj2
             (@step_update_outcomes Q QFloat epsilon_Q
                (zero_structure b_two_keys) b_two_keys b_two_keys 14%Q
                (fn_double b_two_keys) 28%Q eq_refl eq_refl eq_refl))))).
    split; [reflexivity | discriminate].
Defined.

(** X8.  A state returned by the update of [step] keeps the keys, in
    order: the new [x] has the keys of [x], the new residual and the new
    conjugate have the keys of [residual]. *)
Theorem step_update_keeps_keys {F : Type} {ops : FloatOps F} (epsilon : F)
        (x conjugate residual : StructuredValue F) (squared_residual : F)
        (A_conjugate : StructuredValue F) (conjugate_A_conjugate : F)
        (next_x next_conjugate next_residual : StructuredValue F)
        (next_squared_residual : F) :
  step_update epsilon x conjugate residual squared_residual
              A_conjugate conjugate_A_conjugate
  = Ok (next_x, next_conjugate, next_residual, next_squared_residual) ->
  keys next_x = keys x /\
  keys next_residual = keys residual /\
  keys next_conjugate = keys residual.
Proof.
  pose proof (step_update_closed_form epsilon x conjugate residual
                squared_residual A_conjugate conjugate_A_conjugate) as E.
  cbv zeta in E. rewrite E. clear E.
  destruct (covers x conjugate && covers residual A_conjugate
            && covers residual conjugate); [| discriminate].
  destruct residual as [| kt residual'] eqn:Er; [discriminate |].
  rewrite <- Er.
  intros H. injection H as <- <- <- _.
  rewrite !keys_sv_zip. repeat split.
Qed.

Lemma step_update_keeps_keys_witness :
  keys [("weights", [1%Q])] = keys [("weights", [0%Q])] /\
  keys [("weights", [0%Q])] = keys [("weights", [1%Q])] /\
  keys [("weights", [0%Q])] = keys [("weights", [1%Q])].
Proof.
  apply (@step_update_keeps_keys Q QFloat epsilon_Q
           [("weights", [0%Q])] [("weights", [1%Q])] [("weights", [1%Q])]
           1%Q [("weights", [1%Q])] 1%Q
           [("weights", [1%Q])] [("weights", [0%Q])] [("weights", [0%Q])]
           0%Q).
  reflexivity.
Defined.

(* ------------------------------------------------------------------ *)
(** ** The squared residual in exact arithmetic *)

Lemma fold_Qplus_nonnegative (l : list Q) (a : Q) :
  (0 <= a)%Q -> Forall (fun e => 0 <= e)%Q l ->
  (0 <= fold_left Qplus l a)%Q.
Proof.
  revert a. induction l as [| e l IH]; simpl; intros a Ha Hl; [exact Ha |].
  inversion Hl as [| ? ? He Hl']; subst.
  apply IH; [| exact Hl'].
  rewrite <- (Qplus_0_r 0). now apply Qplus_le_compat.
Qed.

Lemma sum_list_nonnegative (l : list Q) :
  Forall (fun e => 0 <= e)%Q l -> (0 <= sum_list l)%Q.
Proof.
  destruct l as [| h r]; simpl; intros H; [apply Qle_refl |].
  inversion H; subst. now apply fold_Qplus_nonnegative.
Qed.

Lemma square_nonnegative (e : Q) : (0 <= e * e)%Q.
Proof.
  unfold Qle, Qmult. simpl. rewrite Z.mul_1_r. apply Z.square_nonneg.
Qed.

Lemma sum_of_squares_nonnegative (r : StructuredValue Q) :
  (0 <= sum_of_squares r)%Q.
Proof.
  unfold sum_of_squares. apply sum_list_nonnegative.
  apply Forall_forall. intros s Hs.
  apply in_map_iff in Hs. destruct Hs as [kt [<- _]].
  apply sum_list_nonnegative.
  apply Forall_forall. intros e He.
  apply in_map_iff in He. destruct He as [u [<- _]].
  apply square_nonnegative.
Qed.

(** X9.  In exact arithmetic the [squared_residual] of every state that
    [start] or the update of [step] returns is non-negative, so that
    [next_step] compares a non-negative number with [epsilon]. *)
Theorem squared_residual_nonnegative :
  (forall (fn_x : StructuredValue Q -> StructuredValue Q)
          (x_init : option (StructuredValue Q))
          (b x conjugate residual : StructuredValue Q)
          (squared_residual : Q),
      start fn_x x_init b = Ok (x, conjugate, residual, squared_residual) ->
      (0 <= squared_residual)%Q) /\
  (forall (epsilon : Q) (x conjugate residual : StructuredValue Q)
          (squared_residual : Q) (A_conjugate : StructuredValue Q)
          (conjugate_A_conjugate : Q)
          (next_x next_conjugate next_residual : StructuredValue Q)
          (next_squared_residual : Q),
      step_update epsilon x conjugate residual squared_residual
                  A_conjugate conjugate_A_conjugate
      = Ok (next_x, next_conjugate, next_residual, next_squared_residual) ->
      (0 <= next_squared_residual)%Q).
Proof.
  split.
  - intros fn_x x_init b x c r sr H.
    apply start_invariant in H. simpl in H. subst sr.
    apply sum_of_squares_nonnegative.
  - intros epsilon x c r sr A cAc nx nc nr nsr H.
    apply step_update_invariant in H. simpl in H. subst nsr.
    apply sum_of_squares_nonnegative.
Qed.

Lemma squared_residual_nonnegative_witness : (0 <= 14)%Q /\ (0 <= 0)%Q.
Proof.
  destruct squared_residual_nonnegative as [Hstart Hupdate].
  split.
  - apply (Hstart fn_double (Some b_two_keys) [] b_two_keys
                  [("weights", [-1; -2]); ("bias", [-3])]%Q
                  [("weights", [-1; -2]); ("bias", [-3])]%Q 14%Q).
    reflexivity.
  - apply (Hupdate epsilon_Q [("weights", [0%Q])] [("weights", [1%Q])]
                   [("weights", [1%Q])] 1%Q [("weights", [1%Q])] 1%Q
                   [("weights", [1%Q])] [("weights", [0%Q])]
                   [("weights", [0%Q])] 0%Q).
    reflexivity.
Defined.

(* ================================================================== *)
(** * Further properties of the wrapper *)

Lemma dict_set_fresh (k : string) (v : value) (d : dict) :
  existsb (String.eqb k) (map fst d) = false ->
  dict_set k v d = (d ++ [(k, v)])%list.
Proof.
  induction d as [| [k' v'] d IH]; simpl; [reflexivity |].
  intros H. apply orb_false_elim in H. destruct H as [Hk Hd].
  rewrite Hk. now rewrite (IH Hd).
Qed.

Lemma distinct_middle (l1 l2 : list string) (k : string) :
  distinct (l1 ++ k :: l2)%list = true ->
  existsb (String.eqb k) l1 = false /\
  distinct ((l1 ++ [k]) ++ l2)%list = true.
Proof.
  induction l1 as [| a l1 IH]; simpl; intros H.
  - split; [reflexivity | exact H].
  - apply andb_prop in H. destruct H as [Ha Hd].
    destruct (IH Hd) as [Hk Hd'].
    apply negb_true_iff in Ha.
    rewrite existsb_app in Ha. apply orb_false_elim in Ha.
    destruct Ha as [Ha1 Ha2]. simpl in Ha2.
    apply orb_false_elim in Ha2. destruct Ha2 as [Hak Ha2].
    split.
    + rewrite String.eqb_sym, Hak. exact Hk.
    + rewrite Hd', andb_true_r. apply negb_true_iff.
      rewrite !existsb_app. simpl. now rewrite Ha1, Hak, Ha2.
Qed.

(** Updating with fresh, distinct keys appends them in order. *)
Lemma dict_update_fresh (d other : dict) :
  distinct (map fst d ++ map fst other)%list = true ->
  dict_update d other = (d ++ other)%list.
Proof.
  unfold dict_update. revert d.
  induction other as [| [k v] other IH]; simpl; intros d H.
  - now rewrite app_nil_r.
  - apply distinct_middle in H. destruct H as [Hk Hd].
    rewrite (dict_set_fresh _ _ _ Hk).
    rewrite IH.
    + now rewrite <- app_assoc.
    + now rewrite map_app.
Qed.



(** X11.  With every knob disabled the wrapper is transparent: for
    keyword arguments with distinct keys and without ['type'], it calls
    the class registered for [optimizer] with exactly these keyword
    arguments, in their order, and [summary_labels], [name],
    [arguments_spec]. *)
Theorem disabled_wrapper_is_transparent (Optimizer : Type)
        (optimizer_modules : string -> option (constructor Optimizer))
        (optimizer : value)
        (summary_labels name arguments_spec : value) (kwargs : dict) :
  distinct ("type" :: map fst kwargs) = true ->
  UpdateModifierWrapper Optimizer optimizer_modules optimizer 1 1 None 0
                        summary_labels name arguments_spec kwargs
  = (optimizer_cls <- registry_lookup Optimizer optimizer_modules optimizer ;;
     optimizer_cls kwargs summary_labels name arguments_spec).
Proof.
  intros Hd. unfold UpdateModifierWrapper.
  change (build_spec optimizer 1 1 None 0 kwargs)
    with (base_spec optimizer kwargs).
  unfold base_spec. rewrite dict_update_fresh by exact Hd.
  reflexivity.
Qed.

Lemma disabled_wrapper_is_transparent_witness :
  UpdateModifierWrapper built registry_example (VStr "adam") 1 1 None 0
                        VNone VNone VNone
                        [("learning_rate", VFloat (1 # 1000));
                         ("epsilon", VFloat (1 # 100))]
  = Ok ("adam", [("learning_rate", VFloat (1 # 1000));
                 ("epsilon", VFloat (1 # 100))]).
Proof.
  rewrite (disabled_wrapper_is_transparent built registry_example
             (VStr "adam") VNone VNone VNone
             [("learning_rate", VFloat (1 # 1000));
              ("epsilon", VFloat (1 # 100))]);
    reflexivity.
Defined.

(** X12.  When a knob is enabled, the wrapper resolves the class of the
    outermost layer only and calls it with exactly two keyword arguments
    from the specification: [optimizer], the inner specification (the
    base specification wrapped in the remaining layers), and the knob of
    the layer; the pass-through keyword arguments stay in the base
    specification. *)
Theorem wrapper_calls_outermost_layer (Optimizer : Type)
        (optimizer_modules : string -> option (constructor Optimizer))
        (optimizer : value) (multi_step : Z) (subsampling_fraction : Q)
        (clipping_threshold : option Q) (optimizing_iterations : Z)
        (summary_labels name arguments_spec : value) (kwargs : dict)
        (tag knob : string) (v : value) (layers : list layer) :
  applied_layers multi_step subsampling_fraction clipping_threshold
                 optimizing_iterations = (tag, knob, v) :: layers ->
  exists inner,
    nested layers inner (base_spec optimizer kwargs) /\
    UpdateModifierWrapper Optimizer optimizer_modules optimizer multi_step
                          subsampling_fraction clipping_threshold
                          optimizing_iterations summary_labels name
                          arguments_spec kwargs
    = (optimizer_cls <-
         registry_lookup Optimizer optimizer_modules (VStr tag) ;;
       optimizer_cls [("optimizer", VDict inner); (knob, v)]
                     summary_labels name arguments_spec).
Proof.
  intros Hl.
  pose proof (build_spec_nested optimizer multi_step subsampling_fraction
                clipping_threshold optimizing_iterations kwargs) as Hn.
  rewrite Hl in Hn. unfold UpdateModifierWrapper.
  inversion Hn as [| tag' knob' v' layers' inner base Hin Ht Hs Hb]; subst.
  exists inner. split; [exact Hin |]. reflexivity.
Qed.

Lemma wrapper_calls_outermost_layer_witness :
  exists inner,
    nested [("clipping_step", "threshold", VFloat 1)] inner
           (base_spec (VStr "adam") [("learning_rate", VFloat (1 # 1000))]) /\
    UpdateModifierWrapper built registry_example (VStr "adam") 3 1
                          (Some 1%Q) 0 VNone VNone VNone
                          [("learning_rate", VFloat (1 # 1000))]
    = (optimizer_cls <-
         registry_lookup built registry_example (VStr "multi_step") ;;
       optimizer_cls [("optimizer", VDict inner); ("num_steps", VInt 3)]
                     VNone VNone VNone).
Proof.
  apply (wrapper_calls_outermost_layer built registry_example (VStr "adam")
           3 1 (Some 1%Q) 0 VNone VNone VNone
           [("learning_rate", VFloat (1 # 1000))]
           "multi_step" "num_steps" (VInt 3)
           [("clipping_step", "threshold", VFloat 1)]).
  reflexivity.
Defined.

(** X13.  With every knob disabled and no ['type'] among the keyword
    arguments, an [optimizer] that is not a type name is looked up in the
    registry as it is and the wrapper raises: [TypeError] for a dict (an
    unhashable key), [KeyError] for [None] or a number. *)
Theorem disabled_wrapper_needs_type_name (Optimizer : Type)
        (optimizer_modules : string -> option (constructor Optimizer))
        (optimizer : value)
        (summary_labels name arguments_spec : value) (kwargs : dict) :
  existsb (String.eqb "type") (map fst kwargs) = false ->
  match optimizer with
  | VStr _ => True
  | VDict _ =>
      UpdateModifierWrapper Optimizer optimizer_modules optimizer 1 1 None 0
                            summary_labels name arguments_spec kwargs
      = Err TypeError
  | _ =>
      UpdateModifierWrapper Optimizer optimizer_modules optimizer 1 1 None 0
                            summary_labels name arguments_spec kwargs
      = Err KeyError
  end.
Proof.
  intros Hk.
  assert (Hty : dict_get "type" (base_spec optimizer kwargs)
                = Some optimizer).
  { unfold base_spec. rewrite (dict_get_update_other _ _ _ Hk).
    reflexivity. }
  destruct (dict_pop_get _ _ _ Hty) as [rest Hpop].
  unfold UpdateModifierWrapper.
  change (build_spec optimizer 1 1 None 0 kwargs)
    with (base_spec optimizer kwargs).
  rewrite Hpop. destruct optimizer; simpl; trivial.
Qed.

Lemma disabled_wrapper_needs_type_name_witness :
  UpdateModifierWrapper built registry_example
                        (VDict [("type", VStr "adam")]) 1 1 None 0
                        VNone VNone VNone []
  = Err TypeError.
Proof.
  apply (disabled_wrapper_needs_type_name built registry_example
           (VDict [("type", VStr "adam")]) VNone VNone VNone []).
  reflexivity.
Defined.

(* ================================================================== *)
(** * Properties of the agent constructor *)

(** X14.  [VanillaPolicyGradient.__init__] fails an assertion exactly in
    these cases: no baseline network is given but [estimate_terminals] is
    true or a baseline optimizer is given; or a baseline network is given
    without a baseline optimizer. *)
Theorem vpg_assertion_failures (a : VPG.arguments) :
  VPG.init a = None <->
  (VPG.is_None (VPG.baseline_network a) = true /\
   (VPG.truthy (VPG.estimate_terminals a) = true \/
    VPG.is_None (VPG.baseline_optimizer a) = false)) \/
  (VPG.is_None (VPG.baseline_network a) = false /\
   VPG.is_None (VPG.baseline_optimizer a) = true).
Proof.
  unfold VPG.init, VPG.baseline_of.
  destruct (VPG.is_None (VPG.baseline_network a));
    destruct (VPG.truthy (VPG.estimate_terminals a));
    destruct (VPG.is_None (VPG.baseline_optimizer a)); simpl;
    split; intros H; try reflexivity; try discriminate H; try tauto;
    destruct H as [[H1 [H2 | H2]] | [H1 H2]]; discriminate.
Qed.

Lemma vpg_assertion_failures_witness :
  VPG.init {| VPG.states := VPG.PyNone; VPG.actions := VPG.PyNone;
              VPG.max_episode_timesteps := VPG.PyInt 100;
              VPG.batch_size := VPG.PyInt 10;
              VPG.network := VPG.PyStr "auto";
              VPG.use_beta_distribution := VPG.PyBool true;
              VPG.memory := VPG.PyNone;
              VPG.update_frequency := VPG.PyNone;
              VPG.learning_rate := VPG.PyFloat (3 # 10000);
              VPG.discount := VPG.PyFloat (99 # 100);
              VPG.estimate_terminals := VPG.PyBool false;
              VPG.baseline_network := VPG.PyStr "auto";
              VPG.baseline_optimizer := VPG.PyNone;
              VPG.preprocessing := VPG.PyNone;
              VPG.exploration := VPG.PyFloat 0;
              VPG.variable_noise := VPG.PyFloat 0;
              VPG.l2_regularization := VPG.PyFloat 0;
              VPG.entropy_regularization := VPG.PyFloat 0;
              VPG.name := VPG.PyStr "agent"; VPG.device := VPG.PyNone;
              VPG.parallel_interactions := VPG.PyInt 1;
              VPG.config := VPG.PyNone; VPG.saver := VPG.PyNone;
              VPG.summarizer := VPG.PyNone; VPG.recorder := VPG.PyNone |}
  = None.
Proof.
  apply (proj2 (vpg_assertion_failures _)).
  right. split; reflexivity.
Defined.

(** X15.  When the constructor passes its assertions, [self.spec] holds
    the arguments as given, and the baseline configuration handed on is
    consistent: either there is no baseline network and
    [baseline_policy], [baseline_optimizer] and [baseline_objective] are
    all [None] (and [estimate_terminals] is false), or there is one and
    none of the three is [None]. *)
Theorem vpg_baseline_consistent (a : VPG.arguments)
        (spec kwargs : VPG.pydict) :
  VPG.init a = Some (spec, kwargs) ->
  spec = VPG.spec_of a /\
  ((VPG.is_None (VPG.baseline_network a) = true /\
    VPG.truthy (VPG.estimate_terminals a) = false /\
    VPG.pyget "baseline_policy" kwargs = Some VPG.PyNone /\
    VPG.pyget "baseline_optimizer" kwargs = Some VPG.PyNone /\
    VPG.pyget "baseline_objective" kwargs = Some VPG.PyNone) \/
   (VPG.is_None (VPG.baseline_network a) = false /\
    exists policy optimizer objective,
      VPG.pyget "baseline_policy" kwargs = Some policy /\
      VPG.pyget "baseline_optimizer" kwargs = Some optimizer /\
      VPG.pyget "baseline_objective" kwargs = Some objective /\
      VPG.is_None policy = false /\
      VPG.is_None optimizer = false /\
      VPG.is_None objective = false)).
Proof.
  unfold VPG.init, VPG.baseline_of.
  destruct (VPG.is_None (VPG.baseline_network a)) eqn:Hn;
    destruct (VPG.truthy (VPG.estimate_terminals a)) eqn:Ht;
    destruct (VPG.is_None (VPG.baseline_optimizer a)) eqn:Ho; simpl;
    intros H; try discriminate H; injection H as <- <-;
    (split; [reflexivity |]).
  - left. repeat split.
    destruct (VPG.baseline_optimizer a); (reflexivity || discriminate Ho).
  - right. split; [reflexivity |].
    eexists _, _, _. repeat split. exact Ho.
  - right. split; [reflexivity |].
    eexists _, _, _. repeat split. exact Ho.
Qed.

Lemma vpg_baseline_consistent_witness :
  let a := VPG.with_defaults VPG.PyNone VPG.PyNone (VPG.PyInt 100)
                             (VPG.PyInt 10) in
  exists spec kwargs,
    VPG.init a = Some (spec, kwargs) /\
    spec = VPG.spec_of a /\
    VPG.pyget "baseline_policy" kwargs = Some VPG.PyNone.
Proof.
  intros a. eexists _, _. split; [reflexivity |].
  destruct (vpg_baseline_consistent a _ _ eq_refl)
    as [Hs [[_ [_ [Hp _]]] | [Hn _]]].
  - split; [exact Hs | exact Hp].
  - discriminate Hn.
Defined.

(** X16.  In the configuration handed on, the optional entries appear
    exactly when the argument is given: the memory is of type ['recent']
    and has a [capacity] if and only if [memory] is given; the update is
    in episodes with the given [batch_size] and has a [frequency] if and
    only if [update_frequency] is given; the reward estimation carries
    [estimate_terminals] if and only if a baseline network is given.  The
    optimizer is always ['adam'] with the given learning rate. *)
Theorem vpg_optional_entries (a : VPG.arguments)
        (spec kwargs : VPG.pydict) :
  VPG.init a = Some (spec, kwargs) ->
  exists memory update reward_estimation,
    VPG.pyget "memory" kwargs = Some (VPG.PyDict memory) /\
    VPG.pyget "update" kwargs = Some (VPG.PyDict update) /\
    VPG.pyget "reward_estimation" kwargs
    = Some (VPG.PyDict reward_estimation) /\
    VPG.pyget "type" memory = Some (VPG.PyStr "recent") /\
    VPG.pyget "capacity" memory
    = (if VPG.is_None (VPG.memory a) then None else Some (VPG.memory a)) /\
    VPG.pyget "unit" update = Some (VPG.PyStr "episodes") /\
    VPG.pyget "batch_size" update = Some (VPG.batch_size a) /\
    VPG.pyget "frequency" update
    = (if VPG.is_None (VPG.update_frequency a) then None
       else Some (VPG.update_frequency a)) /\
    VPG.pyget "estimate_terminals" reward_estimation
    = (if VPG.is_None (VPG.baseline_network a) then None
       else Some (VPG.estimate_terminals a)) /\
    VPG.pyget "optimizer" kwargs
    = Some (VPG.PyDict [("type", VPG.PyStr "adam");
                        ("learning_rate", VPG.learning_rate a)]).
Proof.
  unfold VPG.init, VPG.baseline_of.
  destruct (VPG.is_None (VPG.baseline_network a));
    destruct (VPG.truthy (VPG.estimate_terminals a));
    destruct (VPG.is_None (VPG.baseline_optimizer a));
    destruct (VPG.is_None (VPG.memory a));
    destruct (VPG.is_None (VPG.update_frequency a)); simpl;
    intros H; try discriminate H; injection H as <- <-;
    eexists _, _, _; repeat split.
Qed.

Lemma vpg_optional_entries_witness :
  let a := VPG.with_defaults VPG.PyNone VPG.PyNone (VPG.PyInt 100)
                             (VPG.PyInt 10) in
  exists kwargs memory,
    VPG.pyget "memory" kwargs = Some (VPG.PyDict memory) /\
    VPG.pyget "capacity" memory = None.
Proof.
  intros a.
  destruct (vpg_optional_entries a (VPG.spec_of a)
              (match VPG.init a with
               | Some (_, kwargs) => kwargs
               | None => []
               end) eq_refl)
    as [memory [update [reward [Hm [_ [_ [_ [Hc _]]]]]]]].
  eexists _, memory. split; [exact Hm | exact Hc].
Defined.
